(** * The NRIC verification demo: text heuristics and the /verify handler

    A shallow embedding of [src/app.py].  The two heuristics
    [extract_name] and [extract_nric_last_4] are written over Python
    strings and the subset of the [re] module that their four patterns use;
    the handler [verify_nric] is written in a small monad that threads the
    calls it makes and the exception of its [try]/[except].

    Characters.  A Python [str] is a sequence of code points.  The text is
    modelled as [list ascii], an 8-bit character standing for the code point
    of the same number (U+0000 to U+00FF).  On that range the character
    classes below are those of CPython: [\d] is the category Nd, [\s] and
    [str.split]/[str.strip] use [Py_UNICODE_ISSPACE], [str.isupper] on one
    character is [Py_UNICODE_ISUPPER].  Texts with code points above U+00FF
    are outside the model. *)

From Stdlib Require Import Ascii String.
From stdpp Require Import gmap strings list fin_maps.

(** ** Characters and Python strings *)

Abbreviation str := (list ascii).

(** A string literal of the source. *)
Definition s_ (x : string) : str := list_ascii_of_string x.

Definition code (c : ascii) : nat := nat_of_ascii c.

Definition in_range (lo hi : nat) (c : ascii) : bool :=
  (lo <=? code c) && (code c <=? hi).

(** [\d] on a [str] pattern: decimal digits; below U+0100 these are 0-9. *)
Definition is_digit (c : ascii) : bool := in_range 48 57 c.

(** [Py_UNICODE_ISSPACE]: TAB LF VT FF CR, FS GS RS US, SPACE, NEL, NBSP. *)
Definition is_space (c : ascii) : bool :=
  in_range 9 13 c || in_range 28 32 c || (code c =? 133) || (code c =? 160).

(** [c.isupper()] for a single character: A-Z and the Latin-1 capitals. *)
Definition is_upper (c : ascii) : bool :=
  in_range 65 90 c || in_range 192 214 c || in_range 216 222 c.

Definition is_lower_cased (c : ascii) : bool :=
  in_range 97 122 c || in_range 224 246 c || in_range 248 254 c.

(** Simple case mappings.  The capitals of U+00B5, U+00DF and U+00FF lie
    outside the 8-bit range; those three characters are left as they are. *)
Definition to_lower (c : ascii) : ascii :=
  if is_upper c then ascii_of_nat (code c + 32) else c.

Definition to_upper (c : ascii) : ascii :=
  if is_lower_cased c then ascii_of_nat (code c - 32) else c.

(** [s.upper()] *)
Definition upper (s : str) : str := map to_upper s.

(** [s.lstrip()], [s.rstrip()], [s.strip()] *)
Fixpoint lstrip (s : str) : str :=
  match s with
  | c :: s' => if is_space c then lstrip s' else s
  | [] => []
  end.

Definition rstrip (s : str) : str := rev (lstrip (rev s)).

Definition strip (s : str) : str := rstrip (lstrip s).

(** [s.split()]: the maximal runs of characters that are not whitespace.
    [cur] is the run being read, in reverse. *)
Definition flush (cur : str) : list str :=
  match cur with
  | [] => []
  | _ :: _ => [rev cur]
  end.

Fixpoint split_from (cur : str) (s : str) : list str :=
  match s with
  | [] => flush cur
  | c :: s' =>
      if is_space c then flush cur ++ split_from [] s'
      else split_from (c :: cur) s'
  end.

Definition split (s : str) : list str := split_from [] s.

(** [sep.join(l)] *)
Fixpoint join (sep : str) (l : list str) : str :=
  match l with
  | [] => []
  | [x] => x
  | x :: l' => x ++ sep ++ join sep l'
  end.

(** [l[-n:]] for n > 0 and [l[:n]] *)
Definition slice_last {A} (n : nat) (l : list A) : list A :=
  drop (length l - n) l.

Definition slice_first {A} (n : nat) (l : list A) : list A := take n l.

(** ** Exceptions *)

(** An exception: its class and the text that [str(e)] gives. *)
Inductive exn : Type := Exn (cls : string) (description : str).

Definition str_of_exn (e : exn) : str :=
  match e with Exn _ d => d end.

Inductive result (A : Type) : Type :=
| Ok (a : A)
| Raise (e : exn).
Arguments Ok {A} a.
Arguments Raise {A} e.

#[export] Instance result_ret : MRet result := fun A a => Ok a.

#[export] Instance result_bind : MBind result := fun A B f m =>
  match m with
  | Ok a => f a
  | Raise e => Raise e
  end.

(** [s[i]] on a string raises IndexError out of range. *)
Definition str_index (s : str) (i : nat) : result ascii :=
  match s !! i with
  | Some c => Ok c
  | None => Raise (Exn "IndexError" (s_ "string index out of range"))
  end.

(** [l[i]] on a list. *)
Definition list_index {A} (l : list A) (i : nat) : result A :=
  match l !! i with
  | Some x => Ok x
  | None => Raise (Exn "IndexError" (s_ "list index out of range"))
  end.

(** ** The subset of [re] used by the program

    Literals, character sets (with ranges, [\d] and [\s]), concatenation,
    alternation, numbered capture groups, and greedy bounded or unbounded
    repetition of a character set: every repetition in the program's
    patterns applies to one set. *)

Inductive citem : Type :=
| CChar (c : ascii)
| CRange (lo hi : ascii)
| CDigit
| CSpace.

Inductive regex : Type :=
| Lit (c : ascii)
| Cls (items : list citem)
| Cat (r1 r2 : regex)
| Or (r1 r2 : regex)
| Group (n : nat) (r : regex)
| Rep (lo : nat) (hi : option nat) (items : list citem).

(** One character against one item of a set; [ic] is [re.IGNORECASE]. *)
Definition item_match (ic : bool) (it : citem) (c : ascii) : bool :=
  match it with
  | CChar l =>
      if ic then bool_decide (to_lower c = to_lower l) else bool_decide (c = l)
  | CRange lo hi =>
      if ic then in_range (code lo) (code hi) (to_lower c)
                 || in_range (code lo) (code hi) (to_upper c)
      else in_range (code lo) (code hi) c
  | CDigit => is_digit c
  | CSpace => is_space c
  end.

Definition cls_match (ic : bool) (items : list citem) (c : ascii) : bool :=
  existsb (fun it => item_match ic it c) items.

Abbreviation captures := (gmap nat str).

(** Greedy repetition of a character test, between [lo] and [hi] times,
    with backtracking: the longest run is tried first, then shorter ones. *)
Fixpoint rep {R} (p : ascii → bool) (lo : nat) (hi : option nat)
    (s : str) (k : str → option R) : option R :=
  let stop := if lo =? 0 then k s else None in
  match s with
  | c :: s' =>
      if p c && negb (bool_decide (hi = Some 0)) then
        match rep p (pred lo) (pred <$> hi) s' k with
        | Some x => Some x
        | None => stop
        end
      else stop
  | [] => stop
  end.

(** Backtracking matcher in continuation-passing style: [k] receives the
    unread rest of the text and the groups captured so far. *)
Fixpoint rmatch {R} (ic : bool) (r : regex) (s : str) (caps : captures)
    (k : str → captures → option R) : option R :=
  match r with
  | Lit l =>
      match s with
      | c :: s' => if item_match ic (CChar l) c then k s' caps else None
      | [] => None
      end
  | Cls items =>
      match s with
      | c :: s' => if cls_match ic items c then k s' caps else None
      | [] => None
      end
  | Cat r1 r2 => rmatch ic r1 s caps (fun s1 caps1 => rmatch ic r2 s1 caps1 k)
  | Or r1 r2 =>
      match rmatch ic r1 s caps k with
      | Some x => Some x
      | None => rmatch ic r2 s caps k
      end
  | Group n r1 =>
      rmatch ic r1 s caps
        (fun s1 caps1 => k s1 (<[n := take (length s - length s1) s]> caps1))
  | Rep lo hi items =>
      rep (cls_match ic items) lo hi s (fun s1 => k s1 caps)
  end.

(** A match object: [m.group(0)] and the numbered groups. *)
Record Match : Type := MkMatch { whole : str; groups : captures }.

Definition group (m : Match) (n : nat) : option str :=
  if n =? 0 then Some (whole m) else groups m !! n.

(** A match that starts at the first character of [s]. *)
Definition match_here (ic : bool) (r : regex) (s : str) : option Match :=
  rmatch ic r s ∅
    (fun s1 caps1 => Some (MkMatch (take (length s - length s1) s) caps1)).

(** [re.search(r, s, flags)]: the match at the leftmost position that has
    one, or None. *)
Fixpoint search (ic : bool) (r : regex) (s : str) : option Match :=
  match match_here ic r s with
  | Some m => Some m
  | None =>
      match s with
      | [] => None
      | _ :: s' => search ic r s'
      end
  end.

(** [re.findall(r, s, flags)] for a pattern without groups: the matched
    texts, scanning left to right without overlap.  [skip] counts the
    characters of the last match still to be passed.  The patterns of the
    program never match the empty string. *)
Fixpoint findall_from (ic : bool) (r : regex) (skip : nat) (s : str)
    : list str :=
  match s with
  | [] =>
      match skip, match_here ic r [] with
      | 0, Some m => [whole m]
      | _, _ => []
      end
  | _ :: s' =>
      match skip with
      | S n => findall_from ic r n s'
      | 0 =>
          match match_here ic r s with
          | Some m => whole m :: findall_from ic r (pred (length (whole m))) s'
          | None => findall_from ic r 0 s'
          end
      end
  end.

Definition findall (ic : bool) (r : regex) (s : str) : list str :=
  findall_from ic r 0 s.

(** The literal text [x] as a pattern. *)
Fixpoint lits (x : str) : regex :=
  match x with
  | [] => Rep 0 (Some 0) []
  | [c] => Lit c
  | c :: x' => Cat (Lit c) (lits x')
  end.

(** ** The patterns of [src/app.py] *)

(** [(?:NAME|Name):\s*([A-Z][A-Za-z\s]+)] *)
Definition name_pattern : regex :=
  Cat (Or (lits (s_ "NAME")) (lits (s_ "Name")))
   (Cat (Lit ":"%char)
    (Cat (Rep 0 None [CSpace])
         (Group 1 (Cat (Cls [CRange "A"%char "Z"%char])
                       (Rep 1 None [CRange "A"%char "Z"%char;
                                    CRange "a"%char "z"%char; CSpace]))))).

(** [[STFG]\d{7}[A-Z]] *)
Definition nric_pattern : regex :=
  Cat (Cls [CChar "S"%char; CChar "T"%char; CChar "F"%char; CChar "G"%char])
   (Cat (Rep 7 (Some 7) [CDigit])
        (Cls [CRange "A"%char "Z"%char])).

(** [\d] *)
Definition digit_pattern : regex := Cls [CDigit].

(** [\d{7,}] *)
Definition digit_run_pattern : regex := Rep 7 None [CDigit].

Definition Not_detected : str := s_ "Not detected".

(** ** The heuristics *)

(** The condition of the list comprehension of [extract_name]:
    [w and w[0].isupper() and len(w) > 2]. *)
Definition capitalized_cond (w : str) : result bool :=
  match w with
  | [] => Ok false
  | _ :: _ =>
      c ← str_index w 0;
      if is_upper (c : ascii) then Ok (2 <? length w) else Ok false
  end.

(** [[w for w in words if cond(w)]] *)
Fixpoint comprehension (cond : str → result bool) (words : list str)
    : result (list str) :=
  match words with
  | [] => Ok ([] : list str)
  | w :: words' =>
      b ← cond w;
      rest ← comprehension cond words';
      Ok (if (b : bool) then w :: rest else rest)
  end.

Definition extract_name (text : str) : result str :=
  match text with
  | [] => Ok Not_detected
  | _ :: _ =>
      match search true name_pattern text with
      | Some name_match =>
          match group name_match 1 with
          | Some g => Ok (strip g)
          | None =>
              Raise (Exn "AttributeError"
                       (s_ "'NoneType' object has no attribute 'strip'"))
          end
      | None =>
          let words := split text in
          capitalized ← comprehension capitalized_cond words;
          match capitalized with
          | _ :: _ => Ok (join (s_ " ") (slice_first 3 capitalized))
          | [] => Ok Not_detected
          end
      end
  end.

(** The fallback of [extract_nric_last_4], lines 134-139. *)
Definition digit_run_fallback (text : str) : result str :=
  let digit_sequences := findall false digit_run_pattern text in
  match digit_sequences with
  | _ :: _ =>
      run ← list_index digit_sequences 0;
      Ok (slice_last 4 run)
  | [] => Ok Not_detected
  end.

Definition extract_nric_last_4 (text : str) : result str :=
  match text with
  | [] => Ok Not_detected
  | _ :: _ =>
      let matches := findall true nric_pattern text in
      match matches with
      | _ :: _ =>
          m0 ← list_index matches 0;
          let full_nric := upper m0 in
          let digits := findall false digit_pattern full_nric in
          if 4 <=? length digits
          then Ok (join [] (slice_last 4 digits))
          else digit_run_fallback text
      | [] => digit_run_fallback text
      end
  end.

(** ** The /verify handler *)

Abbreviation bytes := (list Byte.byte).

(** The external collaborators: the image decoder ([Image.open]), the OCR
    engine ([pytesseract.image_to_string]), either of which may raise, and
    the clock read in the Asia/Singapore zone, already formatted. *)
Record collaborators : Type := {
  Bitmap : Type;
  Image_open : bytes → result Bitmap;
  image_to_string : Bitmap → result str;
  now_sgt : str
}.

(** The calls the handler makes, in the order it makes them. *)
Inductive call : Type :=
| Call_read
| Call_Image_open (image_data : bytes)
| Call_image_to_string
| Call_extract_name (text : str)
| Call_extract_nric_last_4 (text : str)
| Call_now.

(** Computations of the handler: the calls made so far are threaded, and
    a computation ends in a value or in an exception. *)
Definition handler (A : Type) : Type := list call → result A * list call.

#[export] Instance handler_ret : MRet handler := fun A a tr => (Ok a, tr).

#[export] Instance handler_bind : MBind handler := fun A B f m tr =>
  match m tr with
  | (Ok a, tr') => f a tr'
  | (Raise e, tr') => (Raise e, tr')
  end.

(** Make one call: record it and take its outcome. *)
Definition perform {A} (c : call) (outcome : result A) : handler A :=
  fun tr => (outcome, tr ++ [c]).

(** [try: body except Exception as e: on_exn(e)] *)
Definition try_except {A} (body : handler A) (on_exn : exn → handler A)
    : handler A :=
  fun tr =>
    match body tr with
    | (Ok a, tr') => (Ok a, tr')
    | (Raise e, tr') => on_exn e tr'
    end.

Inductive json : Type :=
| JBool (b : bool)
| JStr (s : str).

(** What a view returns: [jsonify(body), status]; a lone [jsonify(body)]
    has status 200. *)
Record response : Type := MkResponse {
  body : gmap string json;
  status : nat
}.

(** The request: the file fields of the multipart payload, by name. *)
Record request : Type := MkRequest { files : gmap string bytes }.

Definition verify_nric (env : collaborators) (req : request)
    : handler response :=
  try_except
    (match files req !! "image"%string with
     | None =>
         mret (MkResponse
                 {[ "error"%string := JStr (s_ "No image provided") ]} 400)
     | Some image_file =>
         image_data ← perform Call_read (Ok image_file);
         image ← perform (Call_Image_open image_data)
                         (Image_open env image_data);
         ocr_text ← perform Call_image_to_string (image_to_string env image);
         name ← perform (Call_extract_name ocr_text) (extract_name ocr_text);
         nric_last_4 ← perform (Call_extract_nric_last_4 ocr_text)
                               (extract_nric_last_4 ocr_text);
         timestamp ← perform Call_now (Ok (now_sgt env));
         mret (MkResponse
                 (<[ "success"%string := JBool true ]>
                  (<[ "ocr_text"%string := JStr ocr_text ]>
                   (<[ "name"%string := JStr name ]>
                    (<[ "nric_last_4"%string := JStr nric_last_4 ]>
                     {[ "timestamp"%string := JStr timestamp ]}))))
                 200)
     end)
    (fun e =>
       mret (MkResponse {[ "error"%string := JStr (str_of_exn e) ]} 500)).

(** One request: the handler starts with no call made. *)
Definition serve (env : collaborators) (req : request)
    : result response * list call :=
  verify_nric env req [].

(** ** The Tesseract configuration, lines 17-35

    Run once when the module is loaded.  [path_exists] is
    [os.path.exists]; the state is the two places the code writes to:
    [pytesseract.pytesseract.tesseract_cmd] and [os.environ]. *)

Record process_state : Type := MkProcess {
  tesseract_cmd : string;
  environ : gmap string string
}.

Definition windows_tesseract : string :=
  "C:\Program Files\Tesseract-OCR\tesseract.exe".

Definition tessdata_paths : list string :=
  [ "/usr/share/tesseract-ocr/5/tessdata";
    "/usr/share/tesseract-ocr/4.00/tessdata";
    "/usr/share/tessdata";
    "/app/.apt/usr/share/tesseract-ocr/5/tessdata";
    "/app/.apt/usr/share/tesseract-ocr/4.00/tessdata" ]%string.

(** [for path in paths: if os.path.exists(path): os.environ[...] = path;
    break] *)
Fixpoint set_tessdata_prefix (path_exists : string → bool)
    (paths : list string) (env : gmap string string) : gmap string string :=
  match paths with
  | [] => env
  | path :: paths' =>
      if path_exists path then <[ "TESSDATA_PREFIX"%string := path ]> env
      else set_tessdata_prefix path_exists paths' env
  end.

Definition configure_tesseract (path_exists : string → bool)
    (st : process_state) : process_state :=
  if path_exists windows_tesseract
  then MkProcess windows_tesseract (environ st)
  else MkProcess (tesseract_cmd st)
         (set_tessdata_prefix path_exists tessdata_paths (environ st)).

(** ** Vocabulary of the statements *)

(** The positions of a text: its suffixes, the text itself first. *)
Fixpoint tails (s : str) : list str :=
  s :: match s with
       | [] => []
       | _ :: s' => tails s'
       end.

Definition is_ascii_letter (c : ascii) : bool :=
  in_range 65 90 c || in_range 97 122 c.

(** One of S, T, F, G in either case. *)
Definition is_stfg (c : ascii) : bool :=
  bool_decide (c ∈ s_ "STFGstfg").

(** A full identity number: one letter of S/T/F/G, seven digits, one
    letter. *)
Definition nric_shape (m : str) : bool :=
  match m with
  | c0 :: m' =>
      is_stfg c0 && (length m' =? 8) && forallb is_digit (take 7 m')
      && forallb is_ascii_letter (drop 7 m')
  | [] => false
  end.

(** The seven digits of a full identity number. *)
Definition nric_digits (m : str) : str := take 7 (drop 1 m).

(** A full identity number starts at the first character of [s]. *)
Definition nric_at (s : str) : bool := nric_shape (take 9 s).

(** The text contains a full identity number. *)
Definition has_nric (text : str) : bool := existsb nric_at (tails text).

(** At least [n] digits start at the first character of [s]. *)
Definition digits_at (n : nat) (s : str) : bool :=
  (n <=? length s) && forallb is_digit (take n s).

(** The text contains a run of seven or more digits. *)
Definition has_digit_run (text : str) : bool :=
  existsb (digits_at 7) (tails text).

(** The length of the longest prefix whose characters satisfy [p]. *)
Fixpoint span_len (p : ascii → bool) (s : str) : nat :=
  match s with
  | c :: s' => if p c then S (span_len p s') else 0
  | [] => 0
  end.

(** The tokens kept by the fallback: first character uppercase, more than
    two characters. *)
Definition capitalized_token (w : str) : bool :=
  match w with
  | c :: _ => is_upper c && (2 <? length w)
  | [] => false
  end.

(** The two kinds of response body. *)
Definition error_response (msg : str) (code : nat) : response :=
  MkResponse {[ "error"%string := JStr msg ]} code.

Definition success_response (ocr_text name nric_last_4 timestamp : str)
    : response :=
  MkResponse
    {[ "success"%string := JBool true;
       "ocr_text"%string := JStr ocr_text;
       "name"%string := JStr name;
       "nric_last_4"%string := JStr nric_last_4;
       "timestamp"%string := JStr timestamp ]}
    200.

(** Collaborators with fixed outcomes, for the examples. *)
Definition fixed_collaborators (decoded : result unit)
    (recognized : result str) : collaborators :=
  {| Bitmap := unit;
     Image_open := λ _, decoded;
     image_to_string := λ _, recognized;
     now_sgt := s_ "2024-01-01 12:00:00 +08" |}.

Definition upload (data : bytes) : request :=
  MkRequest {[ "image"%string := data ]}.

(** No string field of the response contains a full identity number. *)
Definition leak_free (resp : response) : Prop :=
  ∀ k v, body resp !! k = Some (JStr v) → has_nric v = false.

(** [s.lower()]; on the 8-bit range every character has a one-character
    lowercase form. *)
Definition lower (s : str) : str := map to_lower s.

(** The match found in the lowercased text. *)
Definition lower_match (m : Match) : Match :=
  MkMatch (lower (whole m)) (groups m).

(** [r] occurs in [l] as a contiguous piece. *)
Definition is_infix (r l : str) : Prop := ∃ a b, l = a ++ r ++ b.

Definition letter_or_space (c : ascii) : bool :=
  is_ascii_letter c || is_space c.

(** A filesystem in which exactly the paths of [present] exist. *)
Definition only_paths (present : list string) (path : string) : bool :=
  bool_decide (path ∈ present).

(** A line feed. *)
Definition nl : str := ["010"%char].

(** * Properties *)

(** ** Characters *)

Ltac each_char c :=
  destruct c as [[] [] [] [] [] [] [] []]; vm_compute; try reflexivity.

Lemma is_digit_to_upper c : is_digit (to_upper c) = is_digit c.
Proof. each_char c. Qed.

Lemma to_upper_digit c : is_digit c = true → to_upper c = c.
Proof. each_char c; discriminate. Qed.

Lemma stfg_not_digit c : is_stfg c = true → is_digit c = false.
Proof. each_char c; discriminate. Qed.

Lemma letter_not_digit c : is_ascii_letter c = true → is_digit c = false.
Proof. each_char c; discriminate. Qed.

Lemma cls_stfg c :
  cls_match true [CChar "S"%char; CChar "T"%char; CChar "F"%char;
                  CChar "G"%char] c = is_stfg c.
Proof. each_char c. Qed.

Lemma cls_letter c :
  cls_match true [CRange "A"%char "Z"%char] c = is_ascii_letter c.
Proof. each_char c. Qed.

Lemma cls_digit ic c : cls_match ic [CDigit] c = is_digit c.
Proof. unfold cls_match; simpl. apply orb_false_r. Qed.

(** ** Repetition *)

Section repetition.
Context {R : Type}.
Implicit Types (p : ascii → bool) (s : str) (k : str → option R).

Lemma rep_ext p q lo hi s k :
  (∀ c, p c = q c) → rep p lo hi s k = rep q lo hi s k.
Proof.
  intros Hpq. revert lo hi.
  induction s as [|c s IH]; intros lo hi; simpl; [done|].
  by rewrite Hpq, IH.
Qed.

(** [x{n}]: exactly [n] characters, all of them satisfying [p]. *)
Lemma rep_exact p n s k :
  rep p n (Some n) s k =
    if (n <=? length s) && forallb p (take n s)
    then k (drop n s) else None.
Proof.
  revert s. induction n as [|n IH]; intros [|c s]; simpl; try done.
  - by rewrite andb_false_r.
  - replace (bool_decide (Some (S n) = Some 0)) with false
      by (symmetry; apply bool_decide_eq_false; congruence).
    rewrite andb_true_r. destruct (p c); simpl.
    + rewrite IH. destruct (_ && _); [by destruct (k _)|done].
    + by rewrite andb_false_r.
Qed.

(** [x{lo,}]: fewer than [lo] characters satisfy [p]: no match. *)
Lemma rep_short p lo s k :
  span_len p s < lo → rep p lo None s k = None.
Proof.
  revert lo. induction s as [|c s IH]; intros lo Hlt; simpl.
  - destruct lo; [lia|done].
  - simpl in Hlt. destruct (p c); simpl.
    + destruct lo as [|lo]; [lia|]. simpl. rewrite IH by lia. done.
    + destruct lo; [lia|done].
Qed.

(** [x{lo,}]: the longest run is tried first. *)
Lemma rep_longest p lo s k x :
  lo ≤ span_len p s → k (drop (span_len p s) s) = Some x →
  rep p lo None s k = Some x.
Proof.
  revert lo. induction s as [|c s IH]; intros lo Hle Hk; simpl in *.
  - assert (lo = 0) as -> by lia. done.
  - destruct (p c); simpl in *.
    + rewrite (IH (pred lo)) by (done || lia). done.
    + assert (lo = 0) as -> by lia. done.
Qed.

(** A repetition that succeeds ends in its continuation. *)
Lemma rep_inv p lo hi s k x :
  rep p lo hi s k = Some x → ∃ s1, k s1 = Some x.
Proof.
  revert lo hi. induction s as [|c s IH]; intros lo hi; simpl.
  - destruct (lo =? 0); [eauto|done].
  - destruct (p c && _).
    + destruct (rep p (pred lo) (pred <$> hi) s k) eqn:E.
      * intros [= ->]. eauto.
      * destruct (lo =? 0); [eauto|done].
    + destruct (lo =? 0); [eauto|done].
Qed.
End repetition.

Lemma span_len_le p s : span_len p s ≤ length s.
Proof. induction s as [|c s IH]; simpl; [lia|]. destruct (p c); simpl; lia. Qed.

Lemma span_len_take p s : forallb p (take (span_len p s) s) = true.
Proof.
  induction s as [|c s IH]; simpl; [done|].
  destruct (p c) eqn:E; simpl; [|done]. by rewrite E.
Qed.

Lemma span_len_ge p n s :
  (n <=? length s) && forallb p (take n s) = (n <=? span_len p s).
Proof.
  revert n. induction s as [|c s IH]; intros [|n]; simpl; try done.
  destruct (p c); simpl.
  - apply IH.
  - by rewrite andb_false_r.
Qed.

Lemma span_len_app p run post :
  forallb p run = true →
  match post with c :: _ => p c = false | [] => True end →
  span_len p (run ++ post) = length run.
Proof.
  intros Hrun Hpost. induction run as [|c run IH]; simpl in *.
  - destruct post as [|c post]; [done|]. simpl. by rewrite Hpost.
  - apply andb_true_iff in Hrun as [-> ?]. by rewrite IH.
Qed.

Lemma span_len_drop p s :
  match drop (span_len p s) s with c :: _ => p c = false | [] => True end.
Proof.
  induction s as [|c s IH]; simpl; [done|].
  destruct (p c) eqn:E; simpl; done.
Qed.

(** ** Scanning: [search] and [findall] *)

Section scanning.
Context (ic : bool) (r : regex).

(** The first element of [findall] is the text of the [search] match. *)
Lemma findall_head s : head (findall ic r s) = whole <$> search ic r s.
Proof.
  unfold findall. induction s as [|c s IH]; simpl.
  - by destruct (match_here ic r []).
  - by destruct (match_here ic r (c :: s)).
Qed.

Lemma search_None s :
  search ic r s = None ↔ ∀ t, t ∈ tails s → match_here ic r t = None.
Proof.
  induction s as [|c s IH]; simpl.
  - split.
    + intros H t ->%list_elem_of_singleton. by destruct (match_here ic r []).
    + intros H. rewrite H; [done|]. by left.
  - split.
    + intros H t Ht. destruct (match_here ic r (c :: s)) eqn:E; [done|].
      apply elem_of_cons in Ht as [->|Ht]; [done|]. by apply IH.
    + intros H. rewrite (H (c :: s)) by by left.
      apply IH. intros t Ht. apply H. by right.
Qed.

Lemma search_Some s m :
  search ic r s = Some m → ∃ t, t ∈ tails s ∧ match_here ic r t = Some m.
Proof.
  induction s as [|c s IH]; simpl.
  - destruct (match_here ic r []) eqn:E; [|done].
    intros [= ->]. exists []. split; [by left|done].
  - destruct (match_here ic r (c :: s)) eqn:E.
    + intros [= ->]. exists (c :: s). split; [by left|done].
    + intros (t & Ht & Hm)%IH. exists t. split; [by right|done].
Qed.

(** The leftmost position that has a match gives the result. *)
Lemma search_leftmost pre t m :
  (∀ i, i < length pre → match_here ic r (drop i (pre ++ t)) = None) →
  match_here ic r t = Some m →
  search ic r (pre ++ t) = Some m.
Proof.
  intros Hpre Ht. induction pre as [|c pre IH]; simpl.
  - destruct t; simpl; by rewrite Ht.
  - pose proof (Hpre 0 ltac:(simpl; lia)) as H0. simpl in H0. rewrite H0.
    apply IH. intros i Hi. apply (Hpre (S i)). simpl; lia.
Qed.
End scanning.

Lemma tails_drop s t : t ∈ tails s ↔ ∃ i, i ≤ length s ∧ t = drop i s.
Proof.
  induction s as [|c s IH]; simpl.
  - rewrite list_elem_of_singleton. split.
    + intros ->. by exists 0.
    + intros (i & _ & ->). by destruct i.
  - rewrite elem_of_cons, IH. split.
    + intros [->|(i & Hi & ->)]; [by exists 0; split; [lia|]|].
      exists (S i). split; [lia|done].
    + intros ([|i] & Hi & ->); [by left|]. right. exists i. split; [lia|done].
  Qed.

Lemma existsb_tails_false (f : str → bool) s :
  existsb f (tails s) = false ↔ ∀ t, t ∈ tails s → f t = false.
Proof.
  split.
  - intros H t Ht. destruct (f t) eqn:E; [|done].
    assert (existsb f (tails s) = true) as Hex; [|congruence].
    apply existsb_exists. exists t. by rewrite <- list_elem_of_In.
  - intros H. destruct (existsb f (tails s)) eqn:E; [|done].
    apply existsb_exists in E as (t & Ht%list_elem_of_In & Hf).
    rewrite H in Hf; done.
Qed.

(** ** The four patterns *)

Lemma forallb_cls_digit ic l :
  forallb (cls_match ic [CDigit]) l = forallb is_digit l.
Proof. induction l as [|c l IH]; simpl; [done|]. by rewrite IH, orb_false_r. Qed.

Lemma drop_cons_inv {A} n (l : list A) x l' :
  drop n l = x :: l' →
  length l = S (n + length l') ∧ take (S n) l = take n l ++ [x].
Proof.
  intros Hd. split.
  - apply (f_equal length) in Hd. rewrite length_drop in Hd. simpl in Hd. lia.
  - apply take_S_r. rewrite <- (Nat.add_0_r n), <- lookup_drop, Hd. done.
Qed.

(** [[STFG]\d{7}[A-Z]] matches at a position exactly when a full identity
    number starts there, and then matches its nine characters. *)
Lemma match_here_nric s :
  match_here true nric_pattern s =
    if nric_at s then Some (MkMatch (take 9 s) ∅) else None.
Proof.
  unfold match_here, nric_at. destruct s as [|c0 s]; [done|].
  cbn [nric_pattern rmatch]. rewrite cls_stfg, rep_exact, forallb_cls_digit.
  change (take 9 (c0 :: s)) with (c0 :: take 8 s). cbn [nric_shape].
  destruct (drop 7 s) as [|c8 s2] eqn:Hd.
  - apply (f_equal length) in Hd. rewrite length_drop in Hd. simpl in Hd.
    replace (length (take 8 s) =? 8) with false
      by (symmetry; apply Nat.eqb_neq; rewrite length_take; lia).
    rewrite andb_false_r. simpl. by repeat case_match.
  - apply drop_cons_inv in Hd as [Hlen Htake].
    rewrite Htake, cls_letter.
    rewrite length_app, length_take_le by lia.
    rewrite take_app_length' by (rewrite length_take_le; lia).
    rewrite drop_app_length' by (rewrite length_take_le; lia).
    replace (7 <=? length s) with true by (symmetry; apply Nat.leb_le; lia).
    replace (length (c0 :: s) - length s2) with 9 by (simpl; lia).
    change (take 9 (c0 :: s)) with (c0 :: take 8 s). rewrite Htake.
    simpl. rewrite andb_true_r.
    by destruct (is_stfg c0), (forallb is_digit (take 7 s)),
      (is_ascii_letter c8).
Qed.

(** [\d] matches one digit. *)
Lemma match_here_digit ic s :
  match_here ic digit_pattern s =
    match s with
    | c :: _ => if is_digit c then Some (MkMatch [c] ∅) else None
    | [] => None
    end.
Proof.
  unfold match_here. destruct s as [|c s]; [done|].
  cbn [digit_pattern rmatch]. rewrite cls_digit.
  replace (length (c :: s) - length s) with 1 by (simpl; lia). done.
Qed.

(** [re.findall(r'\d', s)] lists the digits of [s], one string each. *)
Lemma findall_digits ic s :
  findall ic digit_pattern s = map (λ c, [c]) (List.filter is_digit s).
Proof.
  unfold findall. induction s as [|c s IH]; [done|].
  cbn [findall_from]. rewrite match_here_digit. simpl.
  destruct (is_digit c); simpl; by rewrite IH.
Qed.

(** [\d{7,}] matches at a position exactly when seven digits start there,
    and then matches the whole run of digits. *)
Lemma match_here_digit_run ic s :
  match_here ic digit_run_pattern s =
    if digits_at 7 s
    then Some (MkMatch (take (span_len is_digit s) s) ∅) else None.
Proof.
  unfold match_here, digits_at. cbn [digit_run_pattern rmatch].
  rewrite (rep_ext _ is_digit) by apply cls_digit.
  rewrite span_len_ge. destruct (7 <=? span_len is_digit s) eqn:E.
  - apply Nat.leb_le in E. apply rep_longest; [done|].
    rewrite length_drop. do 3 f_equal.
    pose proof (span_len_le is_digit s). lia.
  - apply Nat.leb_gt in E. by apply rep_short.
Qed.

Lemma join_singletons (l : str) : join [] (map (λ c, [c]) l) = l.
Proof.
  induction l as [|c [|c' l] IH]; try done.
  change (c :: join [] (map (λ c, [c]) (c' :: l)) = c :: c' :: l).
  by rewrite IH.
Qed.

Lemma slice_last_map {A B} (f : A → B) n l :
  slice_last n (map f l) = map f (slice_last n l).
Proof. unfold slice_last. by rewrite length_map, <- fmap_drop. Qed.

Lemma filter_digits_all l :
  forallb is_digit l = true → List.filter is_digit l = l.
Proof.
  induction l as [|c l IH]; simpl; [done|].
  intros [-> ?]%andb_true_iff. by rewrite IH.
Qed.

Lemma filter_digits_none l :
  forallb is_ascii_letter l = true → List.filter is_digit l = [].
Proof.
  induction l as [|c l IH]; simpl; [done|].
  intros [->%letter_not_digit ?]%andb_true_iff. by apply IH.
Qed.

Lemma upper_digits l : forallb is_digit l = true → upper l = l.
Proof.
  unfold upper. induction l as [|c l IH]; simpl; [done|].
  intros [Hc ?]%andb_true_iff. by rewrite IH, to_upper_digit.
Qed.

Lemma filter_digit_upper l :
  List.filter is_digit (upper l) = List.filter is_digit l.
Proof.
  unfold upper. induction l as [|c l IH]; simpl; [done|].
  rewrite is_digit_to_upper.
  destruct (is_digit c) eqn:E; [|done]. by rewrite IH, to_upper_digit.
Qed.

(** The digits found in an uppercased identity number are its seven
    digits. *)
Lemma nric_shape_digits m :
  nric_shape m = true →
  List.filter is_digit (upper m) = nric_digits m ∧
  length (nric_digits m) = 7 ∧ forallb is_digit (nric_digits m) = true.
Proof.
  unfold nric_shape, nric_digits. destruct m as [|c0 m]; [done|].
  rewrite !andb_true_iff, Nat.eqb_eq. intros [[[Hc0 Hlen] Hd] Hl].
  rewrite filter_digit_upper. simpl. rewrite drop_0.
  rewrite (stfg_not_digit c0) by done.
  rewrite <- (take_drop 7 m) at 1. rewrite List.filter_app.
  rewrite filter_digits_all, filter_digits_none, app_nil_r by done.
  by rewrite length_take_le by lia.
Qed.

(** ** The identity-number heuristic *)

Lemma search_nric_shape text m :
  search true nric_pattern text = Some m →
  nric_shape (whole m) = true ∧ ∃ t, t ∈ tails text ∧ whole m = take 9 t.
Proof.
  intros (t & Ht & Hm)%search_Some. rewrite match_here_nric in Hm.
  destruct (nric_at t) eqn:E; [|done]. injection Hm as <-. simpl.
  split; [done|]. by exists t.
Qed.

Lemma search_nric_None text :
  search true nric_pattern text = None ↔ has_nric text = false.
Proof.
  unfold has_nric. rewrite search_None, existsb_tails_false.
  split; intros H t Ht; specialize (H t Ht); rewrite match_here_nric in *;
    by destruct (nric_at t).
Qed.

Lemma search_digit_run_None text :
  search false digit_run_pattern text = None ↔ has_digit_run text = false.
Proof.
  unfold has_digit_run. rewrite search_None, existsb_tails_false.
  split; intros H t Ht; specialize (H t Ht);
    rewrite match_here_digit_run in *; by destruct (digits_at 7 t).
Qed.

Lemma digit_run_fallback_eq text :
  digit_run_fallback text =
    match search false digit_run_pattern text with
    | Some m => Ok (slice_last 4 (whole m))
    | None => Ok Not_detected
    end.
Proof.
  unfold digit_run_fallback.
  pose proof (findall_head false digit_run_pattern text) as Hh.
  destruct (findall false digit_run_pattern text) as [|run l];
    destruct (search false digit_run_pattern text); simpl in Hh; try done.
  by injection Hh as ->.
Qed.

(** What [extract_nric_last_4] computes, in terms of the leftmost match of
    each of its two patterns. *)
Lemma extract_nric_last_4_eq text :
  extract_nric_last_4 text =
    match search true nric_pattern text with
    | Some m => Ok (slice_last 4 (nric_digits (whole m)))
    | None =>
        match search false digit_run_pattern text with
        | Some m => Ok (slice_last 4 (whole m))
        | None => Ok Not_detected
        end
    end.
Proof.
  destruct text as [|c text]; [done|].
  unfold extract_nric_last_4.
  pose proof (findall_head true nric_pattern (c :: text)) as Hh.
  destruct (search true nric_pattern (c :: text)) as [m|] eqn:Hs.
  - apply search_nric_shape in Hs as [Hshape _].
    apply nric_shape_digits in Hshape as (Hf & Hlen & _).
    destruct (findall true nric_pattern (c :: text)) as [|m0 l]; [done|].
    injection Hh as ->. cbn -[upper findall slice_last].
    rewrite findall_digits, Hf, length_map, Hlen. simpl (4 <=? 7).
    cbn match. by rewrite slice_last_map, join_singletons.
  - destruct (findall true nric_pattern (c :: text)); [|done].
    apply digit_run_fallback_eq.
Qed.

(** ** The name heuristic *)

(** A match that succeeds ends in its continuation. *)
Lemma rmatch_inv {R} ic r s caps (k : str → captures → option R) x :
  rmatch ic r s caps k = Some x → ∃ s1 caps1, k s1 caps1 = Some x.
Proof.
  revert s caps k.
  induction r as [l|items|r1 IH1 r2 IH2|r1 IH1 r2 IH2|n r1 IH1|lo hi items];
    intros s caps k; cbn [rmatch].
  - destruct s as [|c s]; [done|]. destruct (item_match _ _ _); [eauto|done].
  - destruct s as [|c s]; [done|]. destruct (cls_match _ _ _); [eauto|done].
  - intros (s1 & caps1 & H)%IH1. by apply IH2 in H.
  - destruct (rmatch ic r1 s caps k) eqn:E.
    + intros [= ->]. by apply IH1 in E.
    + apply IH2.
  - intros (s1 & caps1 & H)%IH1. eauto.
  - intros (s1 & H)%rep_inv. eauto.
Qed.

Lemma rmatch_cat_inv {R} ic r1 r2 s caps (k : str → captures → option R) x :
  rmatch ic (Cat r1 r2) s caps k = Some x →
  ∃ s1 caps1, rmatch ic r2 s1 caps1 k = Some x.
Proof. cbn [rmatch]. apply rmatch_inv. Qed.

Lemma rmatch_group_inv {R} ic n r s caps (k : str → captures → option R) x :
  rmatch ic (Group n r) s caps k = Some x →
  ∃ s1 caps1 g, k s1 (<[n := g]> caps1) = Some x.
Proof. cbn [rmatch]. intros (s1 & caps1 & H)%rmatch_inv. eauto. Qed.

(** When the label pattern matches, its group 1 has taken part. *)
Lemma match_here_name_group s m :
  match_here true name_pattern s = Some m → is_Some (group m 1).
Proof.
  unfold match_here, name_pattern.
  intros (s1 & c1 & H)%rmatch_cat_inv.
  apply rmatch_cat_inv in H as (s2 & c2 & H).
  apply rmatch_cat_inv in H as (s3 & c3 & H).
  apply rmatch_group_inv in H as (s4 & c4 & g & H).
  injection H as <-. unfold group. simpl. rewrite lookup_insert_eq. eauto.
Qed.

(** The label pattern only matches where the text reads n or N. *)
Lemma match_here_name_first c s :
  is_ascii_letter c = false → match_here true name_pattern (c :: s) = None.
Proof.
  intros Hc. unfold match_here, name_pattern. cbn.
  assert (bool_decide (to_lower c = to_lower "N") = false) as ->; [|done].
  revert Hc. each_char c; discriminate.
Qed.

Lemma comprehension_capitalized words :
  comprehension capitalized_cond words =
    Ok (List.filter capitalized_token words).
Proof.
  induction words as [|w words IH]; [done|].
  cbn [comprehension]. rewrite IH. destruct w as [|c w]; [done|].
  cbn. by destruct (is_upper c).
Qed.

(** What [extract_name] computes once the label step has found nothing. *)
Lemma extract_name_fallback text :
  search true name_pattern text = None →
  extract_name text =
    Ok (match List.filter capitalized_token (split text) with
        | [] => Not_detected
        | capitalized => join (s_ " ") (take 3 capitalized)
        end).
Proof.
  intros Hs. destruct text as [|c text]; [done|].
  unfold extract_name. rewrite Hs, comprehension_capitalized.
  cbn. by destruct (List.filter _ _).
Qed.

Lemma split_from_Forall (P : ascii → Prop) cur s :
  Forall P cur → Forall P s → Forall (Forall P) (split_from cur s).
Proof.
  revert cur. induction s as [|c s IH]; intros cur Hcur Hs; simpl.
  - destruct cur; constructor; [|done]. by apply Forall_rev.
  - apply Forall_cons in Hs as [Hc Hs]. destruct (is_space c).
    + apply Forall_app. split; [|by apply IH].
      destruct cur; constructor; [|done]. by apply Forall_rev.
    + apply IH; [by constructor|done].
Qed.

(** Every token of [split] is a non-empty run without whitespace. *)
Lemma split_from_tokens cur s :
  Forall (λ c, is_space c = false) cur →
  Forall (λ w, w ≠ [] ∧ Forall (λ c, is_space c = false) w)
    (split_from cur s).
Proof.
  revert cur. induction s as [|c s IH]; intros cur Hcur; simpl.
  - destruct cur as [|c' cur]; constructor; [|done].
    split; [|by apply Forall_rev].
    intros H%(f_equal length). rewrite length_rev in H. done.
  - destruct (is_space c) eqn:E.
    + apply Forall_app. split; [|by apply IH].
      destruct cur as [|c' cur]; constructor; [|done].
      split; [|by apply Forall_rev].
      intros H%(f_equal length). rewrite length_rev in H. done.
    + apply IH. by constructor.
Qed.

(** ** Shapes of the results *)

Lemma nric_shape_length m : nric_shape m = true → length m = 9.
Proof.
  destruct m as [|c0 m]; [done|]. unfold nric_shape.
  rewrite !andb_true_iff, Nat.eqb_eq. simpl. lia.
Qed.

Lemma nric_at_app m post : nric_shape m = true → nric_at (m ++ post) = true.
Proof.
  intros Hm. unfold nric_at.
  by rewrite take_app_length' by (by rewrite (nric_shape_length m)).
Qed.

Lemma forallb_drop {A} (p : A → bool) n l :
  forallb p l = true → forallb p (drop n l) = true.
Proof.
  revert n. induction l as [|x l IH]; intros [|n]; simpl; try done.
  intros [_ ?]%andb_true_iff. by apply IH.
Qed.

Lemma slice_last_digits n l :
  n ≤ length l → forallb is_digit l = true →
  length (slice_last n l) = n ∧ forallb is_digit (slice_last n l) = true.
Proof.
  intros Hn Hl. unfold slice_last. split.
  - rewrite length_drop. lia.
  - by apply forallb_drop.
Qed.

(** The first position at which [f] holds. *)
Lemma existsb_tails_first (f : str → bool) s :
  existsb f (tails s) = true →
  ∃ pre t, s = pre ++ t ∧ f t = true ∧
    ∀ i, i < length pre → f (drop i s) = false.
Proof.
  induction s as [|c s IH]; simpl.
  - rewrite orb_false_r. intros H. exists [], []. split_and!; [done..|].
    simpl; lia.
  - destruct (f (c :: s)) eqn:E; simpl.
    + intros _. exists [], (c :: s). split_and!; [done..|]. simpl; lia.
    + intros (pre & t & -> & Ht & Hpre)%IH. exists (c :: pre), t.
      split_and!; [done..|]. intros [|i] Hi; [done|].
      apply Hpre. simpl in Hi. lia.
Qed.

(** The leftmost full identity number decides the result. *)
Lemma extract_nric_leftmost pre m post :
  nric_shape m = true →
  (∀ i, i < length pre → nric_at (drop i (pre ++ m ++ post)) = false) →
  extract_nric_last_4 (pre ++ m ++ post) = Ok (slice_last 4 (nric_digits m)).
Proof.
  intros Hm Hpre. rewrite extract_nric_last_4_eq.
  rewrite (search_leftmost _ _ pre (m ++ post) (MkMatch m ∅)); [done|..].
  - intros i Hi. by rewrite match_here_nric, Hpre.
  - rewrite match_here_nric, nric_at_app by done.
    by rewrite take_app_length' by (by rewrite (nric_shape_length m)).
Qed.

(** Without a full identity number, the leftmost run of seven or more
    digits decides the result. *)
Lemma extract_nric_digit_run pre run post :
  has_nric (pre ++ run ++ post) = false →
  7 ≤ length run → forallb is_digit run = true →
  match post with c :: _ => is_digit c = false | [] => True end →
  (∀ i, i < length pre → digits_at 7 (drop i (pre ++ run ++ post)) = false) →
  extract_nric_last_4 (pre ++ run ++ post) = Ok (slice_last 4 run).
Proof.
  intros Hno Hlen Hrun Hpost Hpre. rewrite extract_nric_last_4_eq.
  apply search_nric_None in Hno as ->.
  assert (span_len is_digit (run ++ post) = length run) as Hspan
    by by apply span_len_app.
  rewrite (search_leftmost _ _ pre (run ++ post) (MkMatch run ∅)); [done|..].
  - intros i Hi. by rewrite match_here_digit_run, Hpre.
  - rewrite match_here_digit_run. unfold digits_at.
    rewrite span_len_ge, Hspan, take_app_length.
    by replace (7 <=? length run) with true
      by (symmetry; by apply Nat.leb_le).
Qed.

Lemma extract_nric_none text :
  has_nric text = false → has_digit_run text = false →
  extract_nric_last_4 text = Ok Not_detected.
Proof.
  intros H1%search_nric_None H2%search_digit_run_None.
  by rewrite extract_nric_last_4_eq, H1, H2.
Qed.

(** The result is the sentinel or four digits. *)
Lemma extract_nric_last_4_shape text :
  ∃ r, extract_nric_last_4 text = Ok r ∧
    (r = Not_detected ∨ (length r = 4 ∧ forallb is_digit r = true)).
Proof.
  rewrite extract_nric_last_4_eq.
  destruct (search true nric_pattern text) as [m|] eqn:Hs.
  - eexists. split; [done|]. right.
    apply search_nric_shape in Hs as [Hshape _].
    apply nric_shape_digits in Hshape as (_ & Hlen & Hd).
    apply slice_last_digits; [lia|done].
  - destruct (search false digit_run_pattern text) as [m|] eqn:Hr.
    + eexists. split; [done|]. right.
      apply search_Some in Hr as (t & _ & Hm).
      rewrite match_here_digit_run in Hm.
      destruct (digits_at 7 t) eqn:E; [|done]. injection Hm as <-. simpl.
      unfold digits_at in E. rewrite span_len_ge in E. apply Nat.leb_le in E.
      pose proof (span_len_le is_digit t).
      apply slice_last_digits; [|apply span_len_take].
      rewrite length_take_le; lia.
    + eexists. split; [done|]. by left.
Qed.

Lemma extract_name_total text : ∃ r, extract_name text = Ok r.
Proof.
  destruct text as [|c text]; [by eexists|].
  unfold extract_name.
  destruct (search true name_pattern (c :: text)) as [m|] eqn:Hs.
  - apply search_Some in Hs as (t & _ & Hm).
    apply match_here_name_group in Hm as [g ->]. by eexists.
  - rewrite comprehension_capitalized. cbn.
    destruct (List.filter _ _); by eexists.
Qed.

Lemma has_nric_short v : length v < 9 → has_nric v = false.
Proof.
  intros Hlen. apply existsb_tails_false. intros t (i & _ & ->)%tails_drop.
  unfold nric_at. destruct (nric_shape _) eqn:E; [|done].
  apply nric_shape_length in E. rewrite length_take, length_drop in E. lia.
Qed.

(** ** The unit tests of [test_app.py], run on the embedding *)

Example test_extract_name_with_name_pattern :
  extract_name (s_ "REPUBLIC OF SINGAPORE" ++ nl ++ s_ "NAME: JOHN DOE" ++ nl
                ++ s_ "NRIC: S1234567A")
    = Ok (s_ "JOHN DOE" ++ nl ++ s_ "NRIC").
Proof. vm_compute; reflexivity. Qed.

Example test_extract_name_with_capitalized_words :
  extract_name (s_ "REPUBLIC OF SINGAPORE" ++ nl ++ s_ "JOHN DOE" ++ nl
                ++ s_ "S1234567A")
    = Ok (s_ "REPUBLIC SINGAPORE JOHN").
Proof. vm_compute; reflexivity. Qed.

Example test_extract_name_with_special_characters :
  extract_name (s_ "NAME: O'BRIEN-SMITH") = Ok (s_ "NAME: O'BRIEN-SMITH").
Proof. vm_compute; reflexivity. Qed.

Example test_extract_nric_last_4_valid_nric :
  extract_nric_last_4 (s_ "REPUBLIC OF SINGAPORE" ++ nl ++ s_ "NRIC: S1234567A"
                       ++ nl ++ s_ "Name: John")
    = Ok (s_ "4567").
Proof. vm_compute; reflexivity. Qed.

Example test_extract_nric_last_4_multiple_nrics :
  extract_nric_last_4 (s_ "S1234567A" ++ nl ++ s_ "T9876543B")
    = Ok (s_ "4567").
Proof. vm_compute; reflexivity. Qed.

Example test_extract_nric_last_4_with_f_prefix :
  extract_nric_last_4 (s_ "NRIC: F1234567A") = Ok (s_ "4567").
Proof. vm_compute; reflexivity. Qed.

Example test_extract_nric_last_4_with_g_prefix :
  extract_nric_last_4 (s_ "NRIC: G9876543B") = Ok (s_ "6543").
Proof. vm_compute; reflexivity. Qed.

Example test_extract_nric_last_4_no_match :
  extract_nric_last_4 (s_ "REPUBLIC OF SINGAPORE") = Ok Not_detected.
Proof. vm_compute; reflexivity. Qed.

(** * The claims *)

(** C3.  When the text contains a full identity number (one of S/T/F/G in
    either case, seven digits, one letter), [extract_nric_last_4] returns
    the last four of the seven digits of the leftmost one: for every way of
    writing the text as [pre ++ m ++ post] with [m] a full identity number
    and no identity number starting inside [pre]; such a leftmost
    decomposition exists whenever the text contains an identity number.
    S1234567A gives 4567, T9876543B gives 6543, and of two identity numbers
    only the first counts. *)
Theorem extract_nric_last_4_first_match :
  (∀ pre m post,
     nric_shape m = true →
     (∀ i, i < length pre → nric_at (drop i (pre ++ m ++ post)) = false) →
     extract_nric_last_4 (pre ++ m ++ post)
       = Ok (slice_last 4 (nric_digits m)))
  ∧ (∀ text,
       has_nric text = true →
       ∃ pre m post,
         text = pre ++ m ++ post ∧ nric_shape m = true ∧
         (∀ i, i < length pre → nric_at (drop i text) = false) ∧
         extract_nric_last_4 text = Ok (slice_last 4 (nric_digits m)))
  ∧ extract_nric_last_4 (s_ "S1234567A") = Ok (s_ "4567")
  ∧ extract_nric_last_4 (s_ "T9876543B") = Ok (s_ "6543")
  ∧ extract_nric_last_4 (s_ "S1234567A T9876543B") = Ok (s_ "4567")
  ∧ extract_nric_last_4 (s_ "nric: s1234567a") = Ok (s_ "4567").
Proof.
  split; [apply extract_nric_leftmost|]. split.
  - intros text (pre & t & -> & Ht & Hpre)%existsb_tails_first.
    exists pre, (take 9 t), (drop 9 t). rewrite take_drop.
    split_and!; try done. rewrite <- (take_drop 9 t) at 1.
    apply extract_nric_leftmost; [done|]. by rewrite take_drop.
  - split_and!; vm_compute; reflexivity.
Qed.

Lemma extract_nric_last_4_first_match_witness :
  nric_shape (s_ "S1234567A") = true ∧
  (∀ i, i < length (s_ "NRIC: ") →
     nric_at (drop i (s_ "NRIC: " ++ s_ "S1234567A" ++ s_ " T9876543B"))
       = false) ∧
  extract_nric_last_4 (s_ "NRIC: " ++ s_ "S1234567A" ++ s_ " T9876543B")
    = Ok (slice_last 4 (nric_digits (s_ "S1234567A"))).
Proof.
  assert (∀ i, i < length (s_ "NRIC: ") →
     nric_at (drop i (s_ "NRIC: " ++ s_ "S1234567A" ++ s_ " T9876543B"))
       = false) as Hpre.
  { intros i Hi. do 6 (destruct i as [|i]; [reflexivity|]).
    simpl in Hi. lia. }
  split; [reflexivity|]. split; [exact Hpre|].
  apply (proj1 extract_nric_last_4_first_match
           (s_ "NRIC: ") (s_ "S1234567A") (s_ " T9876543B"));
    [reflexivity|exact Hpre].
Defined.

(** C4.  When the text contains no full identity number but a run of seven
    or more digits, [extract_nric_last_4] returns the last four characters
    of the leftmost such run: [run] is a maximal run of at least seven
    digits and no seven digits start inside [pre].  The bare run 1234567
    gives 4567.  With neither an identity number nor such a run the result
    is exactly "Not detected". *)
Theorem extract_nric_last_4_digit_run :
  (∀ pre run post,
     has_nric (pre ++ run ++ post) = false →
     7 ≤ length run → forallb is_digit run = true →
     match post with c :: _ => is_digit c = false | [] => True end →
     (∀ i, i < length pre →
        digits_at 7 (drop i (pre ++ run ++ post)) = false) →
     extract_nric_last_4 (pre ++ run ++ post) = Ok (slice_last 4 run))
  ∧ (∀ text,
       has_nric text = false → has_digit_run text = true →
       ∃ pre run post,
         text = pre ++ run ++ post ∧
         7 ≤ length run ∧ forallb is_digit run = true ∧
         match post with c :: _ => is_digit c = false | [] => True end ∧
         (∀ i, i < length pre → digits_at 7 (drop i text) = false) ∧
         extract_nric_last_4 text = Ok (slice_last 4 run))
  ∧ extract_nric_last_4 (s_ "1234567") = Ok (s_ "4567")
  ∧ extract_nric_last_4 (s_ "ID: 1234567") = Ok (s_ "4567")
  ∧ (∀ text,
       has_nric text = false → has_digit_run text = false →
       extract_nric_last_4 text = Ok Not_detected).
Proof.
  split; [apply extract_nric_digit_run|]. split; [|split_and!].
  - intros text Hno (pre & t & -> & Ht & Hpre)%existsb_tails_first.
    pose proof (span_len_le is_digit t) as Hle.
    pose proof (span_len_take is_digit t) as Hrun.
    pose proof (span_len_drop is_digit t) as Hpost.
    unfold digits_at in Ht. rewrite span_len_ge in Ht. apply Nat.leb_le in Ht.
    exists pre, (take (span_len is_digit t) t), (drop (span_len is_digit t) t).
    assert (7 ≤ length (take (span_len is_digit t) t)) as Hlen
      by (rewrite length_take_le; lia).
    rewrite take_drop. split_and!; try done.
    rewrite <- (take_drop (span_len is_digit t) t) at 1.
    apply extract_nric_digit_run; try done; by rewrite take_drop.
  - vm_compute; reflexivity.
  - vm_compute; reflexivity.
  - apply extract_nric_none.
Qed.

Lemma extract_nric_last_4_digit_run_witness :
  has_nric (s_ "ID: " ++ s_ "12345678" ++ s_ " x") = false ∧
  7 ≤ length (s_ "12345678") ∧
  forallb is_digit (s_ "12345678") = true ∧
  is_digit " " = false ∧
  (∀ i, i < length (s_ "ID: ") →
     digits_at 7 (drop i (s_ "ID: " ++ s_ "12345678" ++ s_ " x")) = false) ∧
  extract_nric_last_4 (s_ "ID: " ++ s_ "12345678" ++ s_ " x")
    = Ok (s_ "5678") ∧
  has_nric (s_ "REPUBLIC OF SINGAPORE") = false ∧
  has_digit_run (s_ "REPUBLIC OF SINGAPORE") = false ∧
  extract_nric_last_4 (s_ "REPUBLIC OF SINGAPORE") = Ok Not_detected.
Proof.
  assert (∀ i, i < length (s_ "ID: ") →
     digits_at 7 (drop i (s_ "ID: " ++ s_ "12345678" ++ s_ " x")) = false)
    as Hpre.
  { intros i Hi. do 4 (destruct i as [|i]; [reflexivity|]).
    simpl in Hi. lia. }
  split; [reflexivity|]. split; [simpl; lia|].
  split; [reflexivity|]. split; [reflexivity|]. split; [exact Hpre|].
  split.
  { apply (proj1 extract_nric_last_4_digit_run
             (s_ "ID: ") (s_ "12345678") (s_ " x"));
      [reflexivity|simpl; lia|reflexivity|reflexivity|exact Hpre]. }
  split; [reflexivity|]. split; [reflexivity|].
  apply (proj2 (proj2 (proj2 (proj2 extract_nric_last_4_digit_run))));
    reflexivity.
Defined.

(** C9.  Both heuristics return a string on every input and never raise:
    the index and group accesses they make are always in range.  On the
    empty string both return exactly "Not detected". *)
Theorem heuristics_never_raise :
  (∀ text, ∃ r, extract_name text = Ok r)
  ∧ (∀ text, ∃ r, extract_nric_last_4 text = Ok r)
  ∧ extract_name [] = Ok Not_detected
  ∧ extract_nric_last_4 [] = Ok Not_detected.
Proof.
  split; [apply extract_name_total|]. split.
  - intros text. destruct (extract_nric_last_4_shape text) as (r & Hr & _).
    by exists r.
  - split; reflexivity.
Qed.

(** C10.  The value returned by [extract_nric_last_4] is either exactly
    "Not detected" or four characters that are all decimal digits.  In the
    primary branch the guard [len(digits) >= 4] always holds, the match
    having exactly seven digits, so a match of the identity-number pattern
    never falls through to the digit-run fallback. *)
Theorem extract_nric_last_4_result_shape :
  (∀ text, ∃ r,
     extract_nric_last_4 text = Ok r ∧
     (r = Not_detected ∨ (length r = 4 ∧ forallb is_digit r = true)))
  ∧ (∀ text m ms,
       findall true nric_pattern text = m :: ms →
       let digits := findall false digit_pattern (upper m) in
       length digits = 7 ∧ (4 <=? length digits) = true ∧
       extract_nric_last_4 text = Ok (join [] (slice_last 4 digits))).
Proof.
  split; [apply extract_nric_last_4_shape|].
  intros text m ms Hfind digits.
  pose proof (findall_head true nric_pattern text) as Hh.
  rewrite Hfind in Hh. simpl in Hh.
  destruct (search true nric_pattern text) as [m'|] eqn:Hs; [|done].
  injection Hh as ->.
  apply search_nric_shape in Hs as [Hshape _].
  apply nric_shape_digits in Hshape as (Hf & Hlen & _).
  assert (length digits = 7) as Hd.
  { unfold digits. by rewrite findall_digits, Hf, length_map. }
  split_and!; [done|by rewrite Hd|].
  destruct text as [|c text]; [done|].
  unfold extract_nric_last_4. rewrite Hfind. cbn -[upper findall slice_last].
  fold digits. by rewrite Hd.
Qed.

Lemma extract_nric_last_4_result_shape_witness :
  findall true nric_pattern (s_ "NRIC: G9876543B 1234567")
    = [s_ "G9876543B"] ∧
  length (findall false digit_pattern (upper (s_ "G9876543B"))) = 7 ∧
  extract_nric_last_4 (s_ "NRIC: G9876543B 1234567") = Ok (s_ "6543").
Proof.
  split; [reflexivity|].
  destruct (proj2 extract_nric_last_4_result_shape
              (s_ "NRIC: G9876543B 1234567") (s_ "G9876543B") [] eq_refl)
    as (Hlen & _ & Hres).
  split; [exact Hlen|exact Hres].
Defined.

Lemma forallb_Forall {A} (p : A → bool) l :
  forallb p l = true ↔ Forall (λ x, p x = true) l.
Proof.
  induction l as [|x l IH]; simpl.
  - split; [constructor|done].
  - rewrite andb_true_iff, Forall_cons, IH. done.
Qed.

Lemma filter_capitalized_none words :
  Forall (Forall (λ c, negb (is_ascii_letter c || is_upper c) = true)) words →
  List.filter capitalized_token words = [].
Proof.
  induction 1 as [|w words Hw _ IH]; [done|]. simpl. rewrite IH.
  destruct w as [|c w]; [done|]. apply Forall_cons in Hw as [Hc _].
  simpl. destruct (is_upper c); [|done]. by rewrite orb_true_r in Hc.
Qed.

Lemma search_name_no_letter text :
  Forall (λ c, negb (is_ascii_letter c || is_upper c) = true) text →
  search true name_pattern text = None.
Proof.
  intros Htext. apply search_None. intros t (i & _ & ->)%tails_drop.
  apply (Forall_drop _ i) in Htext. destruct (drop i text) as [|c s]; [done|].
  apply Forall_cons in Htext as [Hc _]. apply match_here_name_first.
  by destruct (is_ascii_letter c).
Qed.

(** C6.  When the label step finds nothing, [extract_name] splits the text
    on whitespace, keeps the tokens whose first character is uppercase and
    that have more than two characters, and returns the first three of them
    joined by single spaces, or exactly "Not detected" when none is kept;
    in particular for a text without any letter.  The tokens of the split
    are non-empty and free of whitespace. *)
Theorem extract_name_capitalized_fallback :
  (∀ text,
     search true name_pattern text = None →
     extract_name text =
       Ok (match List.filter capitalized_token (split text) with
           | [] => Not_detected
           | capitalized => join (s_ " ") (take 3 capitalized)
           end))
  ∧ (∀ text,
       forallb (λ c, negb (is_ascii_letter c || is_upper c)) text = true →
       search true name_pattern text = None ∧
       extract_name text = Ok Not_detected)
  ∧ (∀ text,
       Forall (λ w, w ≠ [] ∧ Forall (λ c, is_space c = false) w) (split text))
  ∧ extract_name (s_ "REPUBLIC OF SINGAPORE JOHN DOE")
      = Ok (s_ "REPUBLIC SINGAPORE JOHN")
  ∧ extract_name (s_ "123 456 789") = Ok Not_detected.
Proof.
  split; [apply extract_name_fallback|]. split.
  - intros text Htext%forallb_Forall.
    pose proof (search_name_no_letter text Htext) as Hs.
    split; [done|]. rewrite extract_name_fallback by done.
    rewrite filter_capitalized_none; [done|].
    by apply split_from_Forall.
  - split; [intros text; by apply split_from_tokens|].
    split; vm_compute; reflexivity.
Qed.

Lemma extract_name_capitalized_fallback_witness :
  search true name_pattern (s_ "Mr LEE Kuan of SINGAPORE City") = None ∧
  extract_name (s_ "Mr LEE Kuan of SINGAPORE City")
    = Ok (s_ "LEE Kuan SINGAPORE") ∧
  forallb (λ c, negb (is_ascii_letter c || is_upper c)) (s_ "12-34: (56)!")
    = true ∧
  extract_name (s_ "12-34: (56)!") = Ok Not_detected.
Proof.
  split; [reflexivity|]. split.
  - apply (proj1 extract_name_capitalized_fallback
             (s_ "Mr LEE Kuan of SINGAPORE City")). reflexivity.
  - split; [reflexivity|].
    apply (proj1 (proj2 extract_name_capitalized_fallback)
             (s_ "12-34: (56)!")). reflexivity.
Defined.

(** C2.  The label step is not restricted to an uppercase first letter:
    under [re.IGNORECASE] the set [[A-Z]] also matches lowercase letters.
    On "NAME: john doe" the label step succeeds and the result is
    "john doe", which begins with a lowercase letter; the capitalized-token
    fallback, which the claim expects to run, would have given "NAME:". *)
Theorem extract_name_label_accepts_lowercase :
  whole <$> search true name_pattern (s_ "NAME: john doe")
    = Some (s_ "NAME: john doe")
  ∧ extract_name (s_ "NAME: john doe") = Ok (s_ "john doe")
  ∧ join (s_ " ")
      (take 3 (List.filter capitalized_token (split (s_ "NAME: john doe"))))
    = s_ "NAME:"
  ∧ cls_match true [CRange "A"%char "Z"%char] "j" = true
  ∧ cls_match false [CRange "A"%char "Z"%char] "j" = false.
Proof. split_and!; vm_compute; reflexivity. Qed.

(** ** The handler *)

(** The outcomes of one request, stage by stage. *)
Lemma serve_eq env req :
  serve env req =
    match files req !! "image"%string with
    | None => (Ok (error_response (s_ "No image provided") 400), [])
    | Some data =>
        match Image_open env data with
        | Raise e =>
            (Ok (error_response (str_of_exn e) 500),
             [Call_read; Call_Image_open data])
        | Ok image =>
            match image_to_string env image with
            | Raise e =>
                (Ok (error_response (str_of_exn e) 500),
                 [Call_read; Call_Image_open data; Call_image_to_string])
            | Ok t =>
                match extract_name t, extract_nric_last_4 t with
                | Ok name, Ok nric_last_4 =>
                    (Ok (success_response t name nric_last_4 (now_sgt env)),
                     [Call_read; Call_Image_open data; Call_image_to_string;
                      Call_extract_name t; Call_extract_nric_last_4 t;
                      Call_now])
                | Raise e, _ =>
                    (Ok (error_response (str_of_exn e) 500),
                     [Call_read; Call_Image_open data; Call_image_to_string;
                      Call_extract_name t])
                | Ok _, Raise e =>
                    (Ok (error_response (str_of_exn e) 500),
                     [Call_read; Call_Image_open data; Call_image_to_string;
                      Call_extract_name t; Call_extract_nric_last_4 t])
                end
            end
        end
    end.
Proof.
  unfold serve, verify_nric, try_except.
  destruct (files req !! "image"%string) as [data|]; [|done].
  unfold mbind, handler_bind, perform. simpl.
  destruct (Image_open env data) as [image|e]; [|done].
  destruct (image_to_string env image) as [t|e]; [|done].
  destruct (extract_name t) as [name|e]; [|done].
  destruct (extract_nric_last_4 t) as [nric|e]; done.
Qed.

(** C7.  A request whose payload has no field "image" gets status 400 and
    the body [{error: "No image provided"}], and the handler makes no call
    at all: no read, no decoding, no OCR, no extraction. *)
Theorem verify_nric_no_image env req :
  files req !! "image"%string = None →
  serve env req =
    (Ok (MkResponse {[ "error"%string := JStr (s_ "No image provided") ]} 400),
     []).
Proof. intros H. by rewrite serve_eq, H. Qed.

Lemma verify_nric_no_image_witness :
  files (MkRequest ∅) !! "image"%string = None ∧
  serve (fixed_collaborators (Ok ()) (Ok (s_ "S1234567A"))) (MkRequest ∅) =
    (Ok (MkResponse {[ "error"%string := JStr (s_ "No image provided") ]} 400),
     []).
Proof.
  split; [reflexivity|].
  apply (verify_nric_no_image
           (fixed_collaborators (Ok ()) (Ok (s_ "S1234567A"))) (MkRequest ∅)).
  reflexivity.
Defined.

(** C8.  When the decoder or the OCR engine raises, the response has status
    500 and the body is only [{error: str(e)}]; the failing collaborator was
    called once, nothing is called after it, and no extraction is made. *)
Theorem verify_nric_processing_failure :
  (∀ env req data e,
     files req !! "image"%string = Some data →
     Image_open env data = Raise e →
     serve env req =
       (Ok (MkResponse {[ "error"%string := JStr (str_of_exn e) ]} 500),
        [Call_read; Call_Image_open data]))
  ∧ (∀ env req data image e,
       files req !! "image"%string = Some data →
       Image_open env data = Ok image →
       image_to_string env image = Raise e →
       serve env req =
         (Ok (MkResponse {[ "error"%string := JStr (str_of_exn e) ]} 500),
          [Call_read; Call_Image_open data; Call_image_to_string])).
Proof.
  split.
  - intros env req data e Hf Hd. by rewrite serve_eq, Hf, Hd.
  - intros env req data image e Hf Hd Ho. by rewrite serve_eq, Hf, Hd, Ho.
Qed.

Lemma verify_nric_processing_failure_witness :
  serve (fixed_collaborators
           (Raise (Exn "UnidentifiedImageError"
                     (s_ "cannot identify image file")))
           (Ok (s_ "S1234567A")))
        (upload []) =
    (Ok (MkResponse
           {[ "error"%string := JStr (s_ "cannot identify image file") ]} 500),
     [Call_read; Call_Image_open []])
  ∧ serve (fixed_collaborators (Ok ())
             (Raise (Exn "TesseractError" (s_ "tesseract failed"))))
          (upload []) =
      (Ok (MkResponse {[ "error"%string := JStr (s_ "tesseract failed") ]} 500),
       [Call_read; Call_Image_open []; Call_image_to_string]).
Proof.
  split.
  - apply (proj1 verify_nric_processing_failure
             (fixed_collaborators
                (Raise (Exn "UnidentifiedImageError"
                          (s_ "cannot identify image file")))
                (Ok (s_ "S1234567A")))
             (upload []) []
             (Exn "UnidentifiedImageError" (s_ "cannot identify image file")));
      reflexivity.
  - apply (proj2 verify_nric_processing_failure
             (fixed_collaborators (Ok ())
                (Raise (Exn "TesseractError" (s_ "tesseract failed"))))
             (upload []) [] ()
             (Exn "TesseractError" (s_ "tesseract failed")));
      reflexivity.
Defined.

(** C5.  When decoding and recognition succeed with recognized text [t],
    the response has status 200 and exactly the fields success (true),
    ocr_text ([t] itself), name (the result of [extract_name] on [t]),
    nric_last_4 (the result of [extract_nric_last_4] on [t]) and
    timestamp. *)
Theorem verify_nric_success env req data image t :
  files req !! "image"%string = Some data →
  Image_open env data = Ok image →
  image_to_string env image = Ok t →
  ∃ name nric_last_4,
    extract_name t = Ok name ∧
    extract_nric_last_4 t = Ok nric_last_4 ∧
    serve env req =
      (Ok (MkResponse
             {[ "success"%string := JBool true;
                "ocr_text"%string := JStr t;
                "name"%string := JStr name;
                "nric_last_4"%string := JStr nric_last_4;
                "timestamp"%string := JStr (now_sgt env) ]}
             200),
       [Call_read; Call_Image_open data; Call_image_to_string;
        Call_extract_name t; Call_extract_nric_last_4 t; Call_now]).
Proof.
  intros Hf Hd Ho.
  destruct (extract_name_total t) as [name Hn].
  destruct (extract_nric_last_4_shape t) as (nric & Hi & _).
  exists name, nric. by rewrite serve_eq, Hf, Hd, Ho, Hn, Hi.
Qed.

Lemma verify_nric_success_witness :
  ∃ name nric_last_4,
    extract_name (s_ "NAME: JOHN DOE S1234567A") = Ok name ∧
    extract_nric_last_4 (s_ "NAME: JOHN DOE S1234567A") = Ok nric_last_4 ∧
    serve (fixed_collaborators (Ok ()) (Ok (s_ "NAME: JOHN DOE S1234567A")))
          (upload []) =
      (Ok (MkResponse
             {[ "success"%string := JBool true;
                "ocr_text"%string := JStr (s_ "NAME: JOHN DOE S1234567A");
                "name"%string := JStr name;
                "nric_last_4"%string := JStr nric_last_4;
                "timestamp"%string := JStr (s_ "2024-01-01 12:00:00 +08") ]}
             200),
       [Call_read; Call_Image_open []; Call_image_to_string;
        Call_extract_name (s_ "NAME: JOHN DOE S1234567A");
        Call_extract_nric_last_4 (s_ "NAME: JOHN DOE S1234567A"); Call_now]).
Proof.
  apply (verify_nric_success
           (fixed_collaborators (Ok ()) (Ok (s_ "NAME: JOHN DOE S1234567A")))
           (upload []) [] () (s_ "NAME: JOHN DOE S1234567A"));
    reflexivity.
Defined.

(** C1, as stated, fails: the success payload echoes the recognized text in
    ocr_text, so a text that reads S1234567A is returned in full. *)
Lemma verify_nric_echoes_full_nric :
  ¬ (∀ env req resp tr, serve env req = (Ok resp, tr) → leak_free resp).
Proof.
  intros H.
  pose (env := fixed_collaborators (Ok ()) (Ok (s_ "S1234567A"))).
  destruct (serve env (upload [])) as [[resp|e] tr] eqn:Hs;
    [|vm_compute in Hs; discriminate].
  specialize (H env (upload []) resp tr Hs "ocr_text"%string (s_ "S1234567A")).
  vm_compute in Hs. injection Hs as <- _.
  discriminate H. reflexivity.
Qed.

(** C1, amended.  The nric_last_4 field of a response never contains a full
    identity number: it is "Not detected" or exactly four digits.  The
    ocr_text field is the recognized text itself. *)
Theorem verify_nric_last_4_leak_free :
  (∀ env req resp tr v,
     serve env req = (Ok resp, tr) →
     body resp !! "nric_last_4"%string = Some (JStr v) →
     has_nric v = false ∧
     (v = Not_detected ∨ (length v = 4 ∧ forallb is_digit v = true)))
  ∧ (∀ env req data image t,
       files req !! "image"%string = Some data →
       Image_open env data = Ok image →
       image_to_string env image = Ok t →
       ∃ resp tr,
         serve env req = (Ok resp, tr) ∧
         body resp !! "ocr_text"%string = Some (JStr t)).
Proof.
  split.
  - intros env req resp tr v. rewrite serve_eq.
    destruct (files req !! "image"%string) as [data|];
      [|by intros [= <- _]].
    destruct (Image_open env data) as [image|e]; [|by intros [= <- _]].
    destruct (image_to_string env image) as [t|e]; [|by intros [= <- _]].
    destruct (extract_nric_last_4_shape t) as (nric & -> & Hshape).
    destruct (extract_name t) as [name|e]; [|by intros [= <- _]].
    intros [= <- _]. unfold success_response. simpl.
    rewrite !lookup_insert_ne, lookup_insert_eq by done. intros [= <-].
    split; [|done]. destruct Hshape as [->|[Hlen _]]; [done|].
    apply has_nric_short. lia.
  - intros env req data image t Hf Hd Ho.
    destruct (extract_name_total t) as [name Hn].
    destruct (extract_nric_last_4_shape t) as (nric & Hi & _).
    eexists _, _. rewrite serve_eq, Hf, Hd, Ho, Hn, Hi. split; [done|].
    unfold success_response. simpl.
    by rewrite lookup_insert_ne, lookup_insert_eq.
Qed.

Lemma verify_nric_last_4_leak_free_witness :
  has_nric (s_ "4567") = false ∧
  ∃ resp tr,
    serve (fixed_collaborators (Ok ()) (Ok (s_ "S1234567A"))) (upload [])
      = (Ok resp, tr) ∧
    body resp !! "ocr_text"%string = Some (JStr (s_ "S1234567A")).
Proof.
  split.
  - refine (proj1 (proj1 verify_nric_last_4_leak_free
             (fixed_collaborators (Ok ()) (Ok (s_ "S1234567A")))
             (upload []) _ _ (s_ "4567") eq_refl _)).
    reflexivity.
  - apply (proj2 verify_nric_last_4_leak_free
             (fixed_collaborators (Ok ()) (Ok (s_ "S1234567A")))
             (upload []) [] () (s_ "S1234567A")); reflexivity.
Defined.

(** * Further properties of the code *)

(** ** The handler as a whole *)

(** X1.  The handler answers every request: no exception leaves it, and the
    status is 400, 500 or 200.  It is 400 exactly when the payload has no
    field "image"; a body has the key "success" (with value true) exactly
    when the status is 200 and the key "error" exactly when it is not. *)
Theorem verify_nric_always_responds env req :
  ∃ resp tr,
    serve env req = (Ok resp, tr) ∧
    (status resp = 400 ∨ status resp = 500 ∨ status resp = 200) ∧
    (status resp = 400 ↔ files req !! "image"%string = None) ∧
    (status resp = 200 ↔ body resp !! "success"%string = Some (JBool true)) ∧
    (status resp ≠ 200 ↔ is_Some (body resp !! "error"%string)).
Proof.
  rewrite serve_eq.
  assert (∀ msg code, code ≠ 200 →
    (code = 200 ↔
       body (error_response msg code) !! "success"%string = Some (JBool true))
    ∧ (code ≠ 200 ↔
       is_Some (body (error_response msg code) !! "error"%string))) as Herr.
  { intros msg code Hcode. unfold error_response. simpl. split.
    - rewrite lookup_singleton_ne by done. split; [done|]. discriminate.
    - rewrite lookup_singleton_eq. split; [eauto|done]. }
  assert (∀ t name nric ts,
    (200 = 200 ↔
       body (success_response t name nric ts) !! "success"%string
         = Some (JBool true))
    ∧ (200 ≠ 200 ↔
       is_Some (body (success_response t name nric ts) !! "error"%string)))
    as Hok.
  { intros t name nric ts. unfold success_response. simpl. split.
    - rewrite lookup_insert_eq. done.
    - rewrite !lookup_insert_ne, lookup_singleton_ne by done.
      split; [done|]. intros [? [=]]. }
  destruct (files req !! "image"%string) as [data|] eqn:Hf.
  - destruct (Image_open env data) as [image|e].
    + destruct (image_to_string env image) as [t|e].
      * destruct (extract_name_total t) as [name ->].
        destruct (extract_nric_last_4_shape t) as (nric & -> & _).
        eexists _, _. split; [done|]. simpl.
        split; [auto|]. split; [done|]. apply Hok.
      * eexists _, _. split; [done|]. simpl.
        split; [auto|]. split; [done|]. by apply Herr.
    + eexists _, _. split; [done|]. simpl.
      split; [auto|]. split; [done|]. by apply Herr.
  - eexists _, _. split; [done|]. simpl.
    split; [auto|]. split; [done|]. by apply Herr.
Qed.

Lemma verify_nric_always_responds_witness :
  ∃ resp tr,
    serve (fixed_collaborators (Ok ()) (Ok (s_ "S1234567A"))) (MkRequest ∅)
      = (Ok resp, tr) ∧
    status resp = 400.
Proof.
  destruct (verify_nric_always_responds
              (fixed_collaborators (Ok ()) (Ok (s_ "S1234567A")))
              (MkRequest ∅)) as (resp & tr & Hs & _ & H400 & _).
  exists resp, tr. split; [exact Hs|]. apply H400. reflexivity.
Defined.



(** X3.  A response that carries recognized text is a success response
    whose other fields come from that very text: name and nric_last_4 are
    the results of the two heuristics on the ocr_text field. *)
Theorem verify_nric_fields_from_ocr_text env req resp tr t :
  serve env req = (Ok resp, tr) →
  body resp !! "ocr_text"%string = Some (JStr t) →
  status resp = 200 ∧
  ∃ name nric_last_4,
    extract_name t = Ok name ∧
    extract_nric_last_4 t = Ok nric_last_4 ∧
    body resp !! "name"%string = Some (JStr name) ∧
    body resp !! "nric_last_4"%string = Some (JStr nric_last_4).
Proof.
  rewrite serve_eq.
  destruct (files req !! "image"%string) as [data|]; [|by intros [= <- _]].
  destruct (Image_open env data) as [image|e]; [|by intros [= <- _]].
  destruct (image_to_string env image) as [t'|e]; [|by intros [= <- _]].
  destruct (extract_name_total t') as [name Hn].
  destruct (extract_nric_last_4_shape t') as (nric & Hi & _).
  rewrite Hn, Hi. intros [= <- _]. unfold success_response. simpl.
  rewrite lookup_insert_ne, lookup_insert_eq by done. intros [= <-].
  split; [done|]. exists name, nric. split_and!; [done..| |].
  - by rewrite !lookup_insert_ne, lookup_insert_eq by done.
  - by rewrite !lookup_insert_ne, lookup_insert_eq by done.
Qed.

Lemma verify_nric_fields_from_ocr_text_witness :
  ∃ name nric_last_4,
    extract_name (s_ "Name: Tan S1234567A") = Ok name ∧
    extract_nric_last_4 (s_ "Name: Tan S1234567A") = Ok nric_last_4.
Proof.
  destruct (verify_nric_fields_from_ocr_text
              (fixed_collaborators (Ok ()) (Ok (s_ "Name: Tan S1234567A")))
              (upload []) _ _ (s_ "Name: Tan S1234567A") eq_refl eq_refl)
    as (_ & name & nric & Hn & Hi & _).
  exists name, nric. split; [exact Hn|exact Hi].
Defined.

(** ** The identity-number heuristic: what the result can be *)

Lemma nric_digits_of_search text m :
  search true nric_pattern text = Some m →
  length (slice_last 4 (nric_digits (whole m))) = 4 ∧
  forallb is_digit (nric_digits (whole m)) = true.
Proof.
  intros [Hshape _]%search_nric_shape.
  apply nric_shape_digits in Hshape as (_ & Hlen & Hd).
  split; [|done]. apply slice_last_digits; [lia|done].
Qed.

Lemma digit_run_of_search text m :
  search false digit_run_pattern text = Some m →
  ∃ t, t ∈ tails text ∧ whole m = take (span_len is_digit t) t ∧
    7 ≤ length (whole m) ∧ forallb is_digit (whole m) = true.
Proof.
  intros (t & Ht & Hm)%search_Some. rewrite match_here_digit_run in Hm.
  destruct (digits_at 7 t) eqn:E; [|done]. injection Hm as <-. simpl.
  unfold digits_at in E. rewrite span_len_ge in E. apply Nat.leb_le in E.
  pose proof (span_len_le is_digit t).
  exists t. split_and!; [done..| |apply span_len_take].
  rewrite length_take_le; lia.
Qed.

(** X4.  "Not detected" is returned exactly when there is nothing to
    detect: the text contains neither a full identity number nor a run of
    seven digits. *)
Theorem extract_nric_last_4_not_detected_iff text :
  extract_nric_last_4 text = Ok Not_detected ↔
  has_nric text = false ∧ has_digit_run text = false.
Proof.
  split; [|intros [? ?]; by apply extract_nric_none].
  rewrite extract_nric_last_4_eq.
  destruct (search true nric_pattern text) as [m|] eqn:Hs.
  - apply nric_digits_of_search in Hs as [Hlen _].
    intros [= H]. rewrite H in Hlen. done.
  - apply search_nric_None in Hs.
    destruct (search false digit_run_pattern text) as [m|] eqn:Hr.
    + apply digit_run_of_search in Hr as (_ & _ & _ & Hlen & Hd).
      intros [= H].
      destruct (slice_last_digits 4 (whole m) ltac:(lia) Hd) as [Hl _].
      rewrite H in Hl. done.
    + by apply search_digit_run_None in Hr.
Qed.

Lemma extract_nric_last_4_not_detected_iff_witness :
  extract_nric_last_4 (s_ "tel 123456") = Ok Not_detected.
Proof.
  apply (proj2 (extract_nric_last_4_not_detected_iff (s_ "tel 123456"))).
  split; reflexivity.
Defined.

Lemma is_infix_take n (l : str) : is_infix (take n l) l.
Proof. exists [], (drop n l). simpl. by rewrite take_drop. Qed.

Lemma is_infix_drop n (l : str) : is_infix (drop n l) l.
Proof. exists (take n l), []. by rewrite app_nil_r, take_drop. Qed.

Lemma is_infix_trans (a b c : str) : is_infix a b → is_infix b c → is_infix a c.
Proof.
  intros (a1 & a2 & ->) (b1 & b2 & ->). exists (b1 ++ a1), (a2 ++ b2).
  by rewrite <- !app_assoc.
Qed.

Lemma is_infix_tail t text : t ∈ tails text → is_infix t text.
Proof. intros (i & _ & ->)%tails_drop. apply is_infix_drop. Qed.

(** X5.  The digits returned are read off the text: a result other than
    "Not detected" occurs in the text as four consecutive characters. *)
Theorem extract_nric_last_4_occurs_in_text text r :
  extract_nric_last_4 text = Ok r →
  r = Not_detected ∨ (is_infix r text ∧ length r = 4).
Proof.
  rewrite extract_nric_last_4_eq.
  destruct (search true nric_pattern text) as [m|] eqn:Hs.
  - intros [= <-]. right.
    destruct (nric_digits_of_search _ _ Hs) as [Hlen _]. split; [|done].
    apply search_nric_shape in Hs as (_ & t & Ht & ->).
    unfold slice_last, nric_digits.
    eapply is_infix_trans; [apply is_infix_drop|].
    eapply is_infix_trans; [apply is_infix_take|].
    eapply is_infix_trans; [apply is_infix_drop|].
    eapply is_infix_trans; [apply is_infix_take|]. by apply is_infix_tail.
  - destruct (search false digit_run_pattern text) as [m|] eqn:Hr;
      [|intros [= <-]; by left].
    intros [= <-]. right.
    apply digit_run_of_search in Hr as (t & Ht & Hw & Hlen & Hd).
    split; [|by apply (slice_last_digits 4 (whole m)); [lia|]].
    unfold slice_last. rewrite Hw.
    eapply is_infix_trans; [apply is_infix_drop|].
    eapply is_infix_trans; [apply is_infix_take|]. by apply is_infix_tail.
Qed.

Lemma extract_nric_last_4_occurs_in_text_witness :
  is_infix (s_ "6543") (s_ "NRIC: t9876543b") ∧ length (s_ "6543") = 4.
Proof.
  destruct (extract_nric_last_4_occurs_in_text
              (s_ "NRIC: t9876543b") (s_ "6543") eq_refl) as [Hnd|H].
  - discriminate Hnd.
  - exact H.
Defined.

(** ** The identity-number heuristic does not see letter case *)

Lemma is_digit_to_lower c : is_digit (to_lower c) = is_digit c.
Proof. each_char c. Qed.

Lemma is_stfg_to_lower c : is_stfg (to_lower c) = is_stfg c.
Proof. each_char c. Qed.

Lemma is_ascii_letter_to_lower c :
  is_ascii_letter (to_lower c) = is_ascii_letter c.
Proof. each_char c. Qed.

Lemma to_lower_digit c : is_digit c = true → to_lower c = c.
Proof. each_char c; discriminate. Qed.

Lemma forallb_map_inv {A} (p : A → bool) (f : A → A) l :
  (∀ x, p (f x) = p x) → forallb p (map f l) = forallb p l.
Proof. intros H. induction l as [|x l IH]; simpl; [done|]. by rewrite H, IH. Qed.

Lemma lower_digits l : forallb is_digit l = true → lower l = l.
Proof.
  unfold lower. induction l as [|c l IH]; simpl; [done|].
  intros [Hc ?]%andb_true_iff. by rewrite IH, to_lower_digit.
Qed.

Lemma nric_shape_lower m : nric_shape (lower m) = nric_shape m.
Proof.
  unfold lower. destruct m as [|c0 m]; [done|]. simpl.
  rewrite is_stfg_to_lower, length_map, <- fmap_take, <- fmap_drop.
  rewrite (forallb_map_inv is_digit) by apply is_digit_to_lower.
  by rewrite (forallb_map_inv is_ascii_letter)
    by apply is_ascii_letter_to_lower.
Qed.

Lemma nric_at_lower t : nric_at (lower t) = nric_at t.
Proof.
  unfold nric_at. replace (take 9 (lower t)) with (lower (take 9 t))
    by (unfold lower; by rewrite <- fmap_take).
  apply nric_shape_lower.
Qed.

Lemma span_len_lower t : span_len is_digit (lower t) = span_len is_digit t.
Proof.
  unfold lower. induction t as [|c t IH]; simpl; [done|].
  rewrite is_digit_to_lower. destruct (is_digit c); [by rewrite IH|done].
Qed.

Lemma search_lower ic r s :
  (∀ t, match_here ic r (lower t) = lower_match <$> match_here ic r t) →
  search ic r (lower s) = lower_match <$> search ic r s.
Proof.
  intros H. induction s as [|c s IH].
  - pose proof (H []) as H0. change (lower []) with (@nil ascii) in *.
    cbn [search]. by destruct (match_here ic r []).
  - change (lower (c :: s)) with (to_lower c :: lower s).
    cbn [search]. change (to_lower c :: lower s) with (lower (c :: s)).
    rewrite H. destruct (match_here ic r (c :: s)); [done|]. apply IH.
Qed.

Lemma match_here_nric_lower t :
  match_here true nric_pattern (lower t)
    = lower_match <$> match_here true nric_pattern t.
Proof.
  rewrite !match_here_nric, nric_at_lower.
  destruct (nric_at t); [|done]. simpl. unfold lower_match, lower. simpl.
  by rewrite fmap_take.
Qed.

Lemma match_here_digit_run_lower t :
  match_here false digit_run_pattern (lower t)
    = lower_match <$> match_here false digit_run_pattern t.
Proof.
  rewrite !match_here_digit_run. unfold digits_at.
  rewrite !span_len_ge, span_len_lower.
  destruct (7 <=? span_len is_digit t); [|done]. simpl.
  unfold lower_match, lower. simpl. by rewrite fmap_take.
Qed.

Lemma extract_nric_last_4_lower text :
  extract_nric_last_4 (lower text) = extract_nric_last_4 text.
Proof.
  rewrite !extract_nric_last_4_eq.
  rewrite (search_lower true nric_pattern) by apply match_here_nric_lower.
  rewrite (search_lower false digit_run_pattern)
    by apply match_here_digit_run_lower.
  destruct (search true nric_pattern text) as [m|] eqn:Hs; simpl.
  - destruct (nric_digits_of_search _ _ Hs) as [_ Hd].
    unfold nric_digits, lower. rewrite <- fmap_drop, <- fmap_take.
    fold (nric_digits (whole m)). fold (lower (nric_digits (whole m))).
    by rewrite lower_digits.
  - destruct (search false digit_run_pattern text) as [m|] eqn:Hr; [|done].
    simpl. apply digit_run_of_search in Hr as (_ & _ & _ & _ & Hd).
    by rewrite lower_digits.
Qed.

(** X6.  The identity-number heuristic is blind to letter case: two texts
    with the same lowercase form give the same result. *)
Theorem extract_nric_last_4_ignores_case text text' :
  lower text = lower text' →
  extract_nric_last_4 text = extract_nric_last_4 text'.
Proof.
  intros H.
  by rewrite <- (extract_nric_last_4_lower text), H, extract_nric_last_4_lower.
Qed.

Lemma extract_nric_last_4_ignores_case_witness :
  lower (s_ "Nric: s1234567a") = lower (s_ "NRIC: S1234567A") ∧
  extract_nric_last_4 (s_ "Nric: s1234567a")
    = extract_nric_last_4 (s_ "NRIC: S1234567A").
Proof.
  split; [reflexivity|].
  apply (extract_nric_last_4_ignores_case
           (s_ "Nric: s1234567a") (s_ "NRIC: S1234567A")).
  reflexivity.
Defined.

(** ** The Tesseract configuration *)

Lemma set_tessdata_prefix_first path_exists paths env i p :
  paths !! i = Some p → path_exists p = true →
  (∀ j q, j < i → paths !! j = Some q → path_exists q = false) →
  set_tessdata_prefix path_exists paths env
    = <[ "TESSDATA_PREFIX"%string := p ]> env.
Proof.
  revert i. induction paths as [|q paths IH]; intros [|i] Hi Hp Hbefore;
    try done; simpl in *.
  - injection Hi as ->. by rewrite Hp.
  - rewrite (Hbefore 0 q) by (done || lia).
    apply (IH i); [done..|]. intros j q' Hj Hq'.
    apply (Hbefore (S j) q'); [lia|done].
Qed.

Lemma set_tessdata_prefix_cases path_exists paths env :
  (set_tessdata_prefix path_exists paths env = env ∧
   ∀ p, p ∈ paths → path_exists p = false)
  ∨ ∃ p, p ∈ paths ∧ path_exists p = true ∧
      set_tessdata_prefix path_exists paths env
        = <[ "TESSDATA_PREFIX"%string := p ]> env.
Proof.
  induction paths as [|q paths IH]; simpl.
  - left. split; [done|]. by intros p ?%elem_of_nil.
  - destruct (path_exists q) eqn:E.
    + right. exists q. split_and!; [by left|done..].
    + destruct IH as [[-> Hnone]|(p & Hp & He & ->)].
      * left. split; [done|]. by intros p [->|?]%elem_of_cons; [|apply Hnone].
      * right. exists p. split_and!; [by right|done..].
Qed.

(** X7.  On a machine without the Windows executable, the configuration
    sets TESSDATA_PREFIX to the first directory of the priority list that
    exists, and leaves the Tesseract command alone. *)
Theorem configure_tesseract_first_existing path_exists st i p :
  path_exists windows_tesseract = false →
  tessdata_paths !! i = Some p → path_exists p = true →
  (∀ j q, j < i → tessdata_paths !! j = Some q → path_exists q = false) →
  configure_tesseract path_exists st =
    MkProcess (tesseract_cmd st)
      (<[ "TESSDATA_PREFIX"%string := p ]> (environ st)).
Proof.
  intros Hwin Hi Hp Hbefore. unfold configure_tesseract. rewrite Hwin.
  by rewrite (set_tessdata_prefix_first _ _ _ i p).
Qed.

Lemma configure_tesseract_first_existing_witness :
  configure_tesseract
    (only_paths ["/app/.apt/usr/share/tesseract-ocr/5/tessdata";
                 "/usr/share/tessdata"]%string)
    (MkProcess "tesseract" ∅) =
  MkProcess "tesseract"
    (<[ "TESSDATA_PREFIX"%string := "/usr/share/tessdata"%string ]> ∅).
Proof.
  apply (configure_tesseract_first_existing
           (only_paths ["/app/.apt/usr/share/tesseract-ocr/5/tessdata";
                        "/usr/share/tessdata"]%string)
           (MkProcess "tesseract" ∅) 2 "/usr/share/tessdata"%string);
    [reflexivity|reflexivity|reflexivity|].
  intros j q Hj Hq. destruct j as [|[|j]]; [| |lia];
    injection Hq as <-; reflexivity.
Defined.

(** X8.  The configuration touches nothing else: every environment
    variable other than TESSDATA_PREFIX keeps its value; when the Windows
    executable exists the environment is unchanged and the command is that
    executable; when neither it nor any listed directory exists the state
    is unchanged; and a TESSDATA_PREFIX that differs from the old one is a
    listed directory that exists. *)
Theorem configure_tesseract_frame path_exists st :
  (∀ k, k ≠ "TESSDATA_PREFIX"%string →
     environ (configure_tesseract path_exists st) !! k = environ st !! k)
  ∧ (path_exists windows_tesseract = true →
       configure_tesseract path_exists st
         = MkProcess windows_tesseract (environ st))
  ∧ (path_exists windows_tesseract = false →
       (∀ p, p ∈ tessdata_paths → path_exists p = false) →
       configure_tesseract path_exists st = st)
  ∧ (∀ v, environ (configure_tesseract path_exists st)
            !! "TESSDATA_PREFIX"%string = Some v →
       environ st !! "TESSDATA_PREFIX"%string = Some v ∨
       (v ∈ tessdata_paths ∧ path_exists v = true)).
Proof.
  unfold configure_tesseract.
  destruct (path_exists windows_tesseract) eqn:Hwin; cbn [environ].
  { split_and!; [done..|]. intros v Hv. by left. }
  destruct (set_tessdata_prefix_cases path_exists tessdata_paths (environ st))
    as [[Hset Hnone]|(p & Hp & He & Hset)]; rewrite Hset.
  - split_and!; [done|done| |].
    + intros _ _. by destruct st.
    + intros v Hv. by left.
  - split_and!; [|done| |].
    + intros k Hk. by rewrite lookup_insert_ne.
    + intros _ Hnone. by rewrite (Hnone p Hp) in He.
    + intros v. rewrite lookup_insert_eq. intros [= <-]. by right.
Qed.

Lemma configure_tesseract_frame_witness :
  configure_tesseract (only_paths [windows_tesseract])
    (MkProcess "tesseract" {[ "PATH"%string := "/usr/bin"%string ]})
  = MkProcess windows_tesseract {[ "PATH"%string := "/usr/bin"%string ]}
  ∧ configure_tesseract (only_paths [])
      (MkProcess "tesseract" {[ "PATH"%string := "/usr/bin"%string ]})
    = MkProcess "tesseract" {[ "PATH"%string := "/usr/bin"%string ]}.
Proof.
  split.
  - exact (proj1 (proj2 (configure_tesseract_frame
             (only_paths [windows_tesseract])
             (MkProcess "tesseract"
                {[ "PATH"%string := "/usr/bin"%string ]})))
           eq_refl).
  - exact (proj1 (proj2 (proj2 (configure_tesseract_frame
             (only_paths [])
             (MkProcess "tesseract"
                {[ "PATH"%string := "/usr/bin"%string ]}))))
           eq_refl (λ p _, eq_refl)).
Defined.

(** ** The label step of the name heuristic *)

Lemma rep_inv_strong {R} p lo hi s (k : str → option R) x :
  rep p lo hi s k = Some x →
  ∃ n, lo ≤ n ∧ n ≤ length s ∧ forallb p (take n s) = true ∧
    k (drop n s) = Some x.
Proof.
  revert lo hi. induction s as [|c s IH]; intros lo hi; simpl.
  - destruct (lo =? 0) eqn:E; [|done]. apply Nat.eqb_eq in E as ->.
    intros H. exists 0. split_and!; [lia|simpl; lia|done|done].
  - assert ((if lo =? 0 then k (c :: s) else None) = Some x →
      ∃ n, lo ≤ n ∧ n ≤ S (length s) ∧ forallb p (take n (c :: s)) = true ∧
        k (drop n (c :: s)) = Some x) as Hstop.
    { destruct (lo =? 0) eqn:E; [|done]. apply Nat.eqb_eq in E as ->.
      intros H. exists 0. split_and!; [lia|lia|done|done]. }
    destruct (p c) eqn:Hc; simpl; [|done].
    destruct (negb _); [|done].
    destruct (rep p (pred lo) (pred <$> hi) s k) as [y|] eqn:Hr; [|done].
    intros [= ->]. apply IH in Hr as (n & Hlo & Hn & Hall & Hk).
    exists (S n). simpl. rewrite Hc. split_and!; [lia|lia|done|done].
Qed.

(** A match reads a prefix of the text: its continuation receives a
    suffix. *)
Lemma rmatch_suffix {R} ic r s caps (k : str → captures → option R) x :
  rmatch ic r s caps k = Some x →
  ∃ s1 caps1, s1 `suffix_of` s ∧ k s1 caps1 = Some x.
Proof.
  revert s caps k.
  induction r as [l|items|r1 IH1 r2 IH2|r1 IH1 r2 IH2|n r1 IH1|lo hi items];
    intros s caps k; cbn [rmatch].
  - destruct s as [|c s]; [done|]. destruct (item_match _ _ _); [|done].
    intros H. exists s, caps. split; [by apply suffix_cons_r|done].
  - destruct s as [|c s]; [done|]. destruct (cls_match _ _ _); [|done].
    intros H. exists s, caps. split; [by apply suffix_cons_r|done].
  - intros (s1 & caps1 & Hs1 & H)%IH1.
    apply IH2 in H as (s2 & caps2 & Hs2 & H).
    exists s2, caps2. split; [by etrans|done].
  - destruct (rmatch ic r1 s caps k) eqn:E.
    + intros [= ->]. by apply IH1 in E.
    + apply IH2.
  - intros (s1 & caps1 & Hs1 & H)%IH1. eauto.
  - intros (n & _ & _ & _ & H)%rep_inv_strong.
    exists (drop n s), caps. split; [|done].
    exists (take n s). by rewrite take_drop.
Qed.

Lemma rmatch_cat_suffix {R} ic r1 r2 s caps (k : str → captures → option R) x :
  rmatch ic (Cat r1 r2) s caps k = Some x →
  ∃ s1 caps1, s1 `suffix_of` s ∧ rmatch ic r2 s1 caps1 k = Some x.
Proof. cbn [rmatch]. apply rmatch_suffix. Qed.

Lemma rmatch_cat_lit_inv {R} ic l r2 s caps (k : str → captures → option R) x :
  rmatch ic (Cat (Lit l) r2) s caps k = Some x →
  ∃ c s', s = c :: s' ∧ item_match ic (CChar l) c = true ∧
    rmatch ic r2 s' caps k = Some x.
Proof.
  cbn [rmatch]. destruct s as [|c s]; [done|].
  destruct (item_match _ _ _) eqn:E; [|done]. eauto.
Qed.

(** A group made of one set and a repetition captures the character of the
    set followed by the characters of the repetition. *)
Lemma rmatch_group_cls_rep_inv {R} ic n A lo hi B s caps
    (k : str → captures → option R) x :
  rmatch ic (Group n (Cat (Cls A) (Rep lo hi B))) s caps k = Some x →
  ∃ c rest s1,
    cls_match ic A c = true ∧ lo ≤ length rest ∧
    forallb (cls_match ic B) rest = true ∧
    k s1 (<[n := c :: rest]> caps) = Some x.
Proof.
  cbn [rmatch]. destruct s as [|c s]; [done|].
  destruct (cls_match ic A c) eqn:E; [|done].
  intros (j & Hlo & Hj & Hall & H)%rep_inv_strong.
  exists c, (take j s), (drop j s). split_and!; [done| |done|].
  - rewrite length_take_le; lia.
  - rewrite length_drop in H.
    replace (length (c :: s) - (length s - j)) with (S j) in H
      by (simpl; lia). done.
Qed.

Lemma colon_only c : item_match true (CChar ":"%char) c = true → c = ":"%char.
Proof. each_char c; discriminate. Qed.

Lemma cls_letter_or_space c :
  cls_match true [CRange "A"%char "Z"%char; CRange "a"%char "z"%char; CSpace] c
    = letter_or_space c.
Proof. each_char c. Qed.

Lemma letter_not_space c : is_ascii_letter c = true → is_space c = false.
Proof. each_char c; discriminate. Qed.

(** What the label pattern needs and what its group holds: the text has a
    colon, and group 1 is an ASCII letter followed by at least one letter
    or whitespace character. *)
Lemma match_here_name_inv s m :
  match_here true name_pattern s = Some m →
  ":"%char ∈ s ∧
  ∃ c rest,
    group m 1 = Some (c :: rest) ∧ is_ascii_letter c = true ∧
    rest ≠ [] ∧ forallb letter_or_space rest = true.
Proof.
  unfold match_here, name_pattern.
  intros (s1 & c1 & Hs1 & H)%rmatch_cat_suffix.
  apply rmatch_cat_lit_inv in H as (c & s2 & -> & ->%colon_only & H).
  split. { eapply elem_of_suffix; [|done]. by left. }
  apply rmatch_cat_suffix in H as (s3 & c3 & _ & H).
  apply rmatch_group_cls_rep_inv in H as (a & rest & s4 & Ha & Hlen & Hall & H).
  injection H as <-. exists a, rest. unfold group. simpl.
  rewrite lookup_insert_eq, <- cls_letter.
  split_and!; [done|done| |].
  - intros ->. simpl in Hlen. lia.
  - rewrite <- Hall. clear. induction rest as [|b rest IH]; [done|].
    cbn [forallb]. by rewrite IH, cls_letter_or_space.
Qed.

Lemma search_name_inv text m :
  search true name_pattern text = Some m →
  ":"%char ∈ text ∧
  ∃ c rest,
    group m 1 = Some (c :: rest) ∧ is_ascii_letter c = true ∧
    rest ≠ [] ∧ forallb letter_or_space rest = true.
Proof.
  intros (t & Ht & Hm)%search_Some.
  apply match_here_name_inv in Hm as [Hcolon Hg]. split; [|done].
  apply tails_drop in Ht as (i & _ & ->).
  eapply elem_of_suffix; [done|]. exists (take i text). by rewrite take_drop.
Qed.

(** ** Stripping, splitting and joining *)

Lemma lstrip_app_nonspace l c l' :
  is_space c = false → lstrip (l ++ c :: l') = lstrip l ++ c :: l'.
Proof.
  intros Hc. induction l as [|d l IH]; simpl.
  - by rewrite Hc.
  - destruct (is_space d); [done|done].
Qed.

Lemma lstrip_suffix s : ∃ pre, s = pre ++ lstrip s.
Proof.
  induction s as [|c s [pre IH]]; [by exists []|]. simpl.
  destruct (is_space c); [|by exists []].
  exists (c :: pre). simpl. by f_equal.
Qed.

Lemma lstrip_head s :
  match lstrip s with c :: _ => is_space c = false | [] => True end.
Proof.
  induction s as [|c s IH]; [done|]. simpl.
  destruct (is_space c) eqn:E; done.
Qed.

Lemma last_rev {A} (l : list A) : last (rev l) = head l.
Proof. destruct l as [|x l]; [done|]. simpl. apply last_snoc. Qed.

Lemma head_rev {A} (l : list A) : head (rev l) = last l.
Proof. by rewrite <- (rev_involutive l) at 2; rewrite last_rev. Qed.

Lemma strip_cons_nonspace c rest :
  is_space c = false → strip (c :: rest) = c :: rstrip rest.
Proof.
  intros Hc. unfold strip, rstrip. simpl. rewrite Hc. simpl.
  rewrite lstrip_app_nonspace by done.
  by rewrite rev_app_distr.
Qed.

Lemma rstrip_prefix s : ∃ post, s = rstrip s ++ post.
Proof.
  unfold rstrip. destruct (lstrip_suffix (rev s)) as [pre H].
  exists (rev pre). rewrite <- rev_app_distr, <- H. by rewrite rev_involutive.
Qed.

Lemma rstrip_last s c : last (rstrip s) = Some c → is_space c = false.
Proof.
  unfold rstrip. rewrite last_rev. pose proof (lstrip_head (rev s)) as H.
  destruct (lstrip (rev s)); [done|]. by intros [= <-].
Qed.

(** A string whose first and last characters are not whitespace is left
    as it is by [strip]. *)
Lemma strip_fixed r :
  (∀ c, head r = Some c → is_space c = false) →
  (∀ c, last r = Some c → is_space c = false) →
  strip r = r.
Proof.
  intros Hhead Hlast. destruct r as [|c r]; [done|].
  unfold strip, rstrip. change (lstrip (c :: r))
    with (if is_space c then lstrip r else c :: r).
  rewrite (Hhead c) by done.
  destruct (rev (c :: r)) as [|d u] eqn:E.
  - apply (f_equal length) in E. by rewrite length_rev in E.
  - assert (is_space d = false) as Hd.
    { apply Hlast. by rewrite <- head_rev, E. }
    simpl. rewrite Hd. by rewrite <- E, rev_involutive.
Qed.

Lemma split_from_token cur w s :
  Forall (λ c, is_space c = false) w →
  split_from cur (w ++ s) = split_from (rev w ++ cur) s.
Proof.
  intros Hw. revert cur. induction Hw as [|c w Hc _ IH]; intros cur; [done|].
  simpl. rewrite Hc, IH. by rewrite <- app_assoc.
Qed.

(** A whitespace-free text is its own single token. *)
Lemma split_token w :
  w ≠ [] → Forall (λ c, is_space c = false) w → split w = [w].
Proof.
  intros Hne Hw. unfold split.
  rewrite <- (app_nil_r w) at 1. rewrite split_from_token by done.
  simpl. rewrite app_nil_r. destruct (rev w) as [|a l] eqn:E.
  - apply (f_equal length) in E. rewrite length_rev in E. by destruct w.
  - change (flush (a :: l)) with [rev (a :: l)].
    by rewrite <- E, rev_involutive.
Qed.

(** Splitting what [' '.join] built gives the tokens back. *)
Lemma split_join ws :
  Forall (λ w, w ≠ [] ∧ Forall (λ c, is_space c = false) w) ws →
  split (join (s_ " ") ws) = ws.
Proof.
  induction 1 as [|w ws [Hne Hw] Hws IH]; [done|].
  destruct ws as [|w2 ws]; [by apply split_token|].
  change (join (s_ " ") (w :: w2 :: ws))
    with (w ++ " "%char :: join (s_ " ") (w2 :: ws)).
  unfold split in *. rewrite split_from_token by done.
  change (split_from (rev w ++ []) (" "%char :: join (s_ " ") (w2 :: ws)))
    with (flush (rev w ++ []) ++ split_from [] (join (s_ " ") (w2 :: ws))).
  rewrite IH, app_nil_r. destruct (rev w) as [|a l] eqn:E.
  - apply (f_equal length) in E. rewrite length_rev in E. by destruct w.
  - change (flush (a :: l)) with [rev (a :: l)].
    by rewrite <- E, rev_involutive.
Qed.

Lemma join_head sep c w ws : head (join sep ((c :: w) :: ws)) = Some c.
Proof. by destruct ws. Qed.

Lemma join_last sep ws :
  Forall (λ w, w ≠ [] ∧ Forall (λ c, is_space c = false) w) ws → ws ≠ [] →
  ∃ d, last (join sep ws) = Some d ∧ is_space d = false.
Proof.
  induction 1 as [|w ws [Hne Hw] Hws IH]; [done|]. intros _.
  destruct ws as [|w2 ws].
  - simpl. destruct (last w) as [d|] eqn:E; [|by apply last_None in E].
    exists d. split; [done|]. apply last_Some in E as [w' ->].
    apply Forall_app in Hw as [_ Hd]. by apply Forall_cons in Hd as [? _].
  - destruct IH as (d & Hd & Hsp); [done|]. exists d. split; [|done].
    change (join sep (w :: w2 :: ws))
      with (w ++ sep ++ join sep (w2 :: ws)).
    by rewrite !last_app, Hd.
Qed.

Lemma Forall_list_filter {A} (P : A → Prop) (f : A → bool) l :
  Forall P l → Forall P (List.filter f l).
Proof.
  induction 1 as [|x l Hx _ IH]; simpl; [done|].
  destruct (f x); [by constructor|done].
Qed.

Lemma list_filter_true {A} (f : A → bool) l :
  Forall (λ x, f x = true) (List.filter f l).
Proof.
  induction l as [|x l IH]; simpl; [done|].
  destruct (f x) eqn:E; [by constructor|done].
Qed.

(** ** The name heuristic: what the result can be *)

Lemma forallb_app_l {A} (p : A → bool) l1 l2 :
  forallb p (l1 ++ l2) = true → forallb p l1 = true.
Proof. rewrite forallb_app. by intros [? _]%andb_true_iff. Qed.

Lemma extract_name_label text m :
  search true name_pattern text = Some m →
  ":"%char ∈ text ∧
  ∃ c u,
    extract_name text = Ok (c :: u) ∧ is_ascii_letter c = true ∧
    forallb letter_or_space u = true ∧ strip (c :: u) = c :: u.
Proof.
  intros Hs. destruct (search_name_inv _ _ Hs)
    as (Hcolon & c & rest & Hg & Hc & _ & Hrest).
  split; [done|]. exists c, (rstrip rest).
  pose proof (letter_not_space c Hc) as Hsp.
  split_and!; [|done| |].
  - destruct text as [|c' text]; [by apply elem_of_nil in Hcolon|].
    unfold extract_name. rewrite Hs, Hg. by rewrite strip_cons_nonspace.
  - destruct (rstrip_prefix rest) as [post Hpost]. rewrite Hpost in Hrest.
    by apply forallb_app_l in Hrest.
  - apply strip_fixed.
    + by intros ? [= <-].
    + intros d. rewrite last_cons.
      destruct (last (rstrip rest)) as [e|] eqn:E.
      * intros [= <-]. by apply (rstrip_last rest).
      * by intros [= <-].
Qed.

Lemma search_name_needs_colon text :
  ":"%char ∉ text → search true name_pattern text = None.
Proof.
  intros Hno. destruct (search true name_pattern text) as [m|] eqn:Hs; [|done].
  by apply search_name_inv in Hs as [? _].
Qed.

Lemma capitalized_tokens text :
  Forall (λ w, w ≠ [] ∧ Forall (λ c, is_space c = false) w)
    (take 3 (List.filter capitalized_token (split text)))
  ∧ Forall (λ w, capitalized_token w = true)
      (take 3 (List.filter capitalized_token (split text))).
Proof.
  split; apply Forall_take.
  - apply Forall_list_filter. by apply split_from_tokens.
  - apply list_filter_true.
Qed.



(** X10.  Without a colon in the text the label step cannot match, and the
    name is decided by the capitalized tokens alone. *)
Theorem extract_name_without_colon text :
  ":"%char ∉ text →
  search true name_pattern text = None ∧
  extract_name text =
    Ok (match List.filter capitalized_token (split text) with
        | [] => Not_detected
        | capitalized => join (s_ " ") (take 3 capitalized)
        end).
Proof.
  intros Hs%search_name_needs_colon. split; [done|].
  by apply extract_name_fallback.
Qed.

Lemma extract_name_without_colon_witness :
  extract_name (s_ "NAME JOHN Doe") = Ok (s_ "NAME JOHN Doe").
Proof.
  refine (proj2 (extract_name_without_colon (s_ "NAME JOHN Doe") _)).
  intros H. repeat (apply elem_of_cons in H as [H|H]; [discriminate H|]).
  by apply elem_of_nil in H.
Defined.

Lemma join_tokens_stripped caps :
  Forall (λ w, w ≠ [] ∧ Forall (λ c, is_space c = false) w) caps →
  caps ≠ [] →
  join (s_ " ") caps ≠ [] ∧ strip (join (s_ " ") caps) = join (s_ " ") caps.
Proof.
  intros Htok Hne.
  destruct (join_last (s_ " ") caps Htok Hne) as (d & Hd & Hsp).
  assert (∃ c w' ws', caps = (c :: w') :: ws' ∧ is_space c = false)
    as (c & w' & ws' & Hcaps & Hc).
  { destruct caps as [|[|c w'] ws']; [done| |].
    - by apply Forall_cons in Htok as [[? _] _].
    - exists c, w', ws'. split; [done|].
      apply Forall_cons in Htok as [[_ Hw] _].
      by apply Forall_cons in Hw as [? _]. }
  split.
  - intros H. by rewrite H in Hd.
  - apply strip_fixed.
    + rewrite Hcaps, join_head. by intros ? [= <-].
    + intros e. rewrite Hd. by intros [= <-].
Qed.

(** X11.  The name returned is never empty and never has whitespace at
    either end: [strip] leaves it as it is. *)
Theorem extract_name_nonempty_stripped text r :
  extract_name text = Ok r → r ≠ [] ∧ strip r = r.
Proof.
  destruct (search true name_pattern text) as [m|] eqn:Hs.
  - destruct (extract_name_label _ _ Hs) as (_ & c & u & -> & _ & _ & Hst).
    by intros [= <-].
  - rewrite extract_name_fallback by done.
    destruct (capitalized_tokens text) as [Htok _].
    destruct (List.filter capitalized_token (split text)) as [|w ws];
      [by intros [= <-]|].
    intros [= <-].
    exact (join_tokens_stripped (take 3 (w :: ws)) Htok ltac:(done)).
Qed.

Lemma extract_name_nonempty_stripped_witness :
  s_ "JOHN DOE" ≠ [] ∧ strip (s_ "JOHN DOE") = s_ "JOHN DOE".
Proof.
  apply (extract_name_nonempty_stripped (s_ "NAME:  JOHN DOE  ;")).
  reflexivity.
Defined.

(** X12.  A name produced by the capitalized-token fallback is made of one
    to three words separated by single spaces: splitting it gives back the
    first three kept tokens, each beginning with an uppercase character and
    longer than two characters. *)
Theorem extract_name_fallback_words text r :
  search true name_pattern text = None →
  extract_name text = Ok r →
  (r = Not_detected ∧ List.filter capitalized_token (split text) = [])
  ∨ (split r = take 3 (List.filter capitalized_token (split text)) ∧
     1 ≤ length (split r) ≤ 3 ∧
     Forall (λ w, capitalized_token w = true) (split r) ∧
     join (s_ " ") (split r) = r).
Proof.
  intros Hs. rewrite extract_name_fallback by done.
  destruct (capitalized_tokens text) as [Htok Hcap].
  destruct (List.filter capitalized_token (split text)) as [|w ws] eqn:E.
  { intros [= <-]. by left. }
  intros Hr. right.
  assert (r = join (s_ " ") (take 3 (w :: ws))) as -> by congruence.
  rewrite split_join by done. split_and!; try done.
  - simpl. lia.
  - rewrite length_take. lia.
Qed.

Lemma extract_name_fallback_words_witness :
  split (s_ "REPUBLIC SINGAPORE JOHN")
    = [s_ "REPUBLIC"; s_ "SINGAPORE"; s_ "JOHN"].
Proof.
  destruct (extract_name_fallback_words
              (s_ "REPUBLIC OF SINGAPORE JOHN DOE S1234567A")
              (s_ "REPUBLIC SINGAPORE JOHN") eq_refl eq_refl)
    as [[Hnd _]|[Hsplit _]].
  - discriminate Hnd.
  - exact Hsplit.
Defined.

(** ** The name heuristic on a bare identity number *)

Lemma stfg_letter c : is_stfg c = true → is_ascii_letter c = true.
Proof. each_char c; discriminate. Qed.

Lemma letter_or_digit_not_space c :
  is_ascii_letter c || is_digit c = true → is_space c = false.
Proof. each_char c; discriminate. Qed.

Lemma nric_shape_chars m :
  nric_shape m = true →
  Forall (λ c, is_ascii_letter c || is_digit c = true) m.
Proof.
  destruct m as [|c0 m]; [done|]. unfold nric_shape.
  rewrite !andb_true_iff. intros [[[Hc0%stfg_letter _] Hd] Hl].
  constructor; [by rewrite Hc0|].
  rewrite <- (take_drop 7 m). apply Forall_app. split.
  - apply forallb_Forall in Hd. eapply Forall_impl; [done|].
    intros c ->. apply orb_true_r.
  - apply forallb_Forall in Hl. eapply Forall_impl; [done|].
    by intros c ->.
Qed.

(** X13.  The name heuristic does not know identity numbers: a text that
    is just one full identity number is returned whole as the name when its
    prefix letter is uppercase, and gives "Not detected" when it is
    lowercase. *)
Theorem extract_name_returns_bare_nric c0 m :
  nric_shape (c0 :: m) = true →
  extract_name (c0 :: m) =
    Ok (if is_upper c0 then c0 :: m else Not_detected).
Proof.
  intros Hshape.
  pose proof (nric_shape_length _ Hshape) as Hlen.
  pose proof (nric_shape_chars _ Hshape) as Hchars.
  rewrite extract_name_fallback.
  - rewrite split_token; [|done|].
    + cbn [List.filter capitalized_token]. rewrite Hlen.
      by destruct (is_upper c0).
    + eapply Forall_impl; [done|]. apply letter_or_digit_not_space.
  - apply search_name_needs_colon. intros Hin.
    rewrite Forall_forall in Hchars. by apply Hchars in Hin.
Qed.

Lemma extract_name_returns_bare_nric_witness :
  extract_name (s_ "T9876543B") = Ok (s_ "T9876543B").
Proof.
  apply (extract_name_returns_bare_nric "T"%char (s_ "9876543B")).
  reflexivity.
Defined.

(** ** The label step, forwards *)
















